(** * Location-sharing backend (backend/server.py): a shallow embedding

    The server has three routes over one MongoDB collection
    ([db.locations]) and one outbound call to the Telegram bot API.
    The handlers are embedded as functions in a state-and-error monad over
    the collection and a log of the outbound calls; what the environment
    decides (the clock, [uuid.uuid4()], whether the database answers, what
    [requests.post] returns) is an explicit argument of each call. *)

From Stdlib Require Import ZArith List String Ascii Bool Lia.
From Stdlib Require Import Sorting.Sorted Sorting.Permutation.
From Stdlib Require Floats.PrimFloat.
Import ListNotations.

Local Open Scope string_scope.
Local Open Scope Z_scope.

(* ================================================================= *)
(** ** Fixed-width numerals *)

(** Python's ['%04d' % n], ['%02d' % n], ['%06d' % n] and ['%032x' % n]
    print exactly [w] digits when [0 <= n < base ^ w]; [render] is that
    case, most significant digit first. *)
Module Digits.

(** ['0'..'9'] then ['a'..'f']. *)
Definition digit_code (d : Z) : Z :=
  if d <? 10 then 48 + d else 87 + d.

Definition digit_char (d : Z) : ascii :=
  ascii_of_N (Z.to_N (digit_code d)).

Fixpoint render (base : Z) (w : nat) (n : Z) : string :=
  match w with
  | O => ""
  | S w' =>
      String (digit_char ((n / base ^ Z.of_nat w') mod base))
             (render base w' n)
  end.

(** The value of a decimal digit character. *)
Definition digit_val (c : ascii) : option Z :=
  let k := Z.of_N (N_of_ascii c) in
  if (48 <=? k) && (k <=? 57) then Some (k - 48) else None.

(** Read exactly [w] decimal digits from the front of [s]. *)
Fixpoint take_digits (w : nat) (acc : Z) (s : string) : option (Z * string) :=
  match w with
  | O => Some (acc, s)
  | S w' =>
      match s with
      | String c s' =>
          match digit_val c with
          | Some d => take_digits w' (10 * acc + d) s'
          | None => None
          end
      | EmptyString => None
      end
  end.

(** Consume one expected character. *)
Definition expect (c : ascii) (s : string) : option string :=
  match s with
  | String c' s' => if Ascii.eqb c c' then Some s' else None
  | EmptyString => None
  end.

End Digits.

(* ================================================================= *)
(** ** [datetime] values in UTC *)

(** [datetime.now(timezone.utc)] is an aware datetime whose tzinfo is
    [timezone.utc]; every timestamp of the server is of that kind, so the
    offset is not a field here. *)
Module Datetime.

Record datetime : Type := mkDatetime {
  year : Z; month : Z; day : Z;
  hour : Z; minute : Z; second : Z; microsecond : Z
}.

Definition is_leap (y : Z) : bool :=
  (y mod 4 =? 0) && (negb (y mod 100 =? 0) || (y mod 400 =? 0)).

Definition days_in_month (y m : Z) : Z :=
  if m =? 2 then (if is_leap y then 29 else 28)
  else if (m =? 4) || (m =? 6) || (m =? 9) || (m =? 11) then 30
  else 31.

(** The range checks of the [datetime] constructor (MINYEAR = 1,
    MAXYEAR = 9999). *)
Definition valid (d : datetime) : bool :=
  (1 <=? year d) && (year d <=? 9999) &&
  (1 <=? month d) && (month d <=? 12) &&
  (1 <=? day d) && (day d <=? days_in_month (year d) (month d)) &&
  (0 <=? hour d) && (hour d <? 24) &&
  (0 <=? minute d) && (minute d <? 60) &&
  (0 <=? second d) && (second d <? 60) &&
  (0 <=? microsecond d) && (microsecond d <? 1000000).

Definition lex (c : comparison) (k : comparison) : comparison :=
  match c with Eq => k | _ => c end.

(** Comparison of two aware datetimes of the same offset: field by
    field. *)
Definition compare (a b : datetime) : comparison :=
  lex (year a ?= year b)
 (lex (month a ?= month b)
 (lex (day a ?= day b)
 (lex (hour a ?= hour b)
 (lex (minute a ?= minute b)
 (lex (second a ?= second b)
      (microsecond a ?= microsecond b)))))).

Definition leb (a b : datetime) : bool :=
  match compare a b with Gt => false | _ => true end.

Definition ltb (a b : datetime) : bool :=
  match compare a b with Lt => true | _ => false end.

Definition utc_suffix : string := "+00:00".

(** [datetime.isoformat()]: [YYYY-MM-DDTHH:MM:SS], then [.ffffff] unless
    the microsecond is 0, then the offset. *)
Definition isoformat (d : datetime) : string :=
  Digits.render 10 4 (year d) ++ "-" ++
  Digits.render 10 2 (month d) ++ "-" ++
  Digits.render 10 2 (day d) ++ "T" ++
  Digits.render 10 2 (hour d) ++ ":" ++
  Digits.render 10 2 (minute d) ++ ":" ++
  Digits.render 10 2 (second d) ++
  (if microsecond d =? 0 then utc_suffix
   else "." ++ Digits.render 10 6 (microsecond d) ++ utc_suffix).

Definition bind {A B : Type} (o : option A) (k : A -> option B) : option B :=
  match o with Some a => k a | None => None end.

(** [datetime.fromisoformat] on the texts the server writes: the offset
    has to be [+00:00].  Python also reads other offsets; no record of
    this server carries one, and this function has no value for them.
    [None] is Python's [ValueError]. *)
Definition fromisoformat (s : string) : option datetime :=
  bind (Digits.take_digits 4 0 s) (fun '(y, s) =>
  bind (Digits.expect "-" s) (fun s =>
  bind (Digits.take_digits 2 0 s) (fun '(mo, s) =>
  bind (Digits.expect "-" s) (fun s =>
  bind (Digits.take_digits 2 0 s) (fun '(d, s) =>
  bind (Digits.expect "T" s) (fun s =>
  bind (Digits.take_digits 2 0 s) (fun '(h, s) =>
  bind (Digits.expect ":" s) (fun s =>
  bind (Digits.take_digits 2 0 s) (fun '(mi, s) =>
  bind (Digits.expect ":" s) (fun s =>
  bind (Digits.take_digits 2 0 s) (fun '(sec, s) =>
  bind (match s with
        | String "." s' => Digits.take_digits 6 0 s'
        | _ => Some (0, s)
        end) (fun '(us, s) =>
  let r := mkDatetime y mo d h mi sec us in
  if String.eqb s utc_suffix && valid r then Some r else None)))))))))))).

End Datetime.

(* ================================================================= *)
(** ** [str(uuid.uuid4())] *)

(** A UUID is its 128-bit integer.  [UUID.__str__] prints it with
    ['%032x'] and cuts the 32 digits into groups of 8, 4, 4, 4 and 12. *)
Module Uuid.

Definition in_range (n : Z) : Prop := 0 <= n < 2 ^ 128.

Definition hex (n : Z) : string := Digits.render 16 32 n.

(** [hex[:8]-hex[8:12]-hex[12:16]-hex[16:20]-hex[20:]]. *)
Definition hyphenate (h : string) : string :=
  substring 0 8 h ++ "-" ++ substring 8 4 h ++ "-" ++
  substring 12 4 h ++ "-" ++ substring 16 4 h ++ "-" ++
  substring 20 12 h.

Definition str (n : Z) : string := hyphenate (hex n).

End Uuid.

Arguments Uuid.str : simpl never.
Arguments Datetime.isoformat : simpl never.
Arguments Datetime.fromisoformat : simpl never.

(* ================================================================= *)
(** ** Request bodies *)

(** A Python [float] is an IEEE binary64 value.  The server never computes
    with one: it copies it from the request into the record, the document
    and the Telegram payload. *)
Definition float : Type := PrimFloat.float.

(** What [json.loads] gives for a request body. *)
#[local] Set Warnings "-register-all".
Inductive jvalue : Type :=
| JNull
| JBool (b : bool)
| JInt (n : Z)
| JFloat (x : float)
| JStr (s : string)
| JArr (items : list jvalue)
| JObj (fields : list (string * jvalue)).

(** Lookup in an object read by [json.loads]: of two fields with the same
    name the later one is kept. *)
Fixpoint dict_get (k : string) (fields : list (string * jvalue)) : option jvalue :=
  match fields with
  | [] => None
  | (k', v) :: rest =>
      match dict_get k rest with
      | Some v' => Some v'
      | None => if String.eqb k k' then Some v else None
      end
  end.

(** A string is converted to [float] by a float parser, which accepts a
    signed decimal number (it has at least one digit) or one of the names
    [inf], [infinity] and [nan], in any case, possibly between spaces or
    with single underscores inside.  [could_be_number] holds of every
    text the parser accepts: the text has a digit, or its letters spell
    one of the three names. *)
Definition is_digit (c : ascii) : bool :=
  (48 <=? N_of_ascii c)%N && (N_of_ascii c <=? 57)%N.

Fixpoint has_digit (s : string) : bool :=
  match s with
  | EmptyString => false
  | String c r => is_digit c || has_digit r
  end.

(** The letter [c] in lower case, if [c] is a letter. *)
Definition letter_of (c : ascii) : option ascii :=
  let n := N_of_ascii c in
  if ((97 <=? n) && (n <=? 122))%N then Some c
  else if ((65 <=? n) && (n <=? 90))%N then Some (ascii_of_N (n + 32))
  else None.

Fixpoint letters_of (s : string) : string :=
  match s with
  | EmptyString => EmptyString
  | String c r =>
      match letter_of c with
      | Some l => String l (letters_of r)
      | None => letters_of r
      end
  end.

Definition names_inf_or_nan (s : string) : bool :=
  String.eqb (letters_of s) "inf" || String.eqb (letters_of s) "infinity" ||
  String.eqb (letters_of s) "nan".

Definition could_be_number (s : string) : bool :=
  has_digit s || names_inf_or_nan s.


(* ================================================================= *)
(** ** Models, documents, errors *)

(** [class Location(BaseModel)]. *)
Record Location : Type := mkLocation {
  id : string;
  latitude : float;
  longitude : float;
  accuracy : option float;
  timestamp : Datetime.datetime
}.

(** [class LocationCreate(BaseModel)]. *)
Record LocationCreate : Type := mkLocationCreate {
  lc_latitude : float;
  lc_longitude : float;
  lc_accuracy : option float
}.

(** A document of [db.locations]: [location_obj.model_dump()] with the
    timestamp replaced by its ISO text.  The [_id] that MongoDB adds is
    projected away by the only query ([{"_id": 0}]) and is left out. *)
Record document : Type := mkDocument {
  d_id : string;
  d_latitude : float;
  d_longitude : float;
  d_accuracy : option float;
  d_timestamp : string
}.

(** The exceptions that can leave a route. *)
Inductive error : Type :=
| RequestValidationError
    (* FastAPI: the body is not a [LocationCreate]; HTTP 422 *)
| PyMongoError
    (* raised by the driver and caught nowhere; HTTP 500 *)
| HTTPException (status_code : Z) (detail : string)
    (* raised by [send_location_to_telegram] *)
| ValueError.
    (* [datetime.fromisoformat] on a text it cannot read; HTTP 500 *)

(** The error kinds of the specification. *)
Inductive error_kind : Type :=
| ValidationError | StorageError | NotificationError | OtherError.

Definition kind_of (e : error) : error_kind :=
  match e with
  | RequestValidationError => ValidationError
  | PyMongoError => StorageError
  | HTTPException _ _ => NotificationError
  | ValueError => OtherError
  end.

Inductive result (A : Type) : Type :=
| Ok (a : A)
| Err (e : error).
Arguments Ok {A} a.
Arguments Err {A} e.

(* ================================================================= *)
(** ** The world: the collection and the calls made *)

(** The calls a route makes to its collaborators, in the order made. *)
Inductive event : Type :=
| InsertOne (doc : document)
| Find
| DeleteMany
| RequestsPost (url : string) (chat_id : option string) (lat lon : float)
| LogError (msg : string).

Record world : Type := mkWorld {
  locations : list document;   (* db.locations, in insertion order *)
  calls : list event
}.

Definition empty_world : world := mkWorld [] [].

(** State and error monad of the routes. *)
Definition M (A : Type) : Type := world -> result A * world.

Definition ret {A : Type} (a : A) : M A := fun w => (Ok a, w).

Definition raise {A : Type} (e : error) : M A := fun w => (Err e, w).

Definition bind {A B : Type} (m : M A) (k : A -> M B) : M B :=
  fun w =>
    match m w with
    | (Ok a, w') => k a w'
    | (Err e, w') => (Err e, w')
    end.

Notation "x <- m ;; k" := (bind m (fun x => k))
  (at level 61, m at next level, right associativity).
Notation "m ;;; k" := (bind m (fun _ => k))
  (at level 61, right associativity).

Definition call (ev : event) : M unit :=
  fun w => (Ok tt, mkWorld (locations w) (calls w ++ [ev])%list).

(** What [requests.post(url, json=payload, timeout=10)] does. *)
Record Response : Type := mkResponse {
  status_code : Z;
  body_json : option jvalue;   (* [None]: [response.json()] raises *)
  exc_text : string            (* [str(e)] of what this response raises *)
}.

Inductive post_outcome : Type :=
| PostRaises (msg : string)    (* ConnectionError, Timeout, ...; msg is [str(e)] *)
| PostReturns (r : Response).

(** [Response.raise_for_status()] raises [HTTPError] exactly for the
    status codes 400 to 599. *)
Definition raise_for_status (r : Response) : bool :=
  (400 <=? status_code r) && (status_code r <? 600).

(** What the environment decides during one [POST /location/share]. *)
Record share_env : Type := mkShareEnv {
  uuid4 : Z;                   (* uuid.uuid4().int *)
  now : Datetime.datetime;     (* datetime.now(timezone.utc) *)
  insert_ok : bool;            (* does insert_one return? *)
  post : post_outcome
}.

(* ================================================================= *)
(** ** The collection *)

Module Mongo.

(** [insert_one(doc)]. *)
Definition insert_one (ok : bool) (doc : document) : M unit :=
  call (InsertOne doc) ;;;
  fun w =>
    if ok then (Ok tt, mkWorld (locations w ++ [doc])%list (calls w))
    else (Err PyMongoError, w).

(** [.sort("timestamp", -1)]: the field is a string in every document,
    and MongoDB compares strings byte by byte.  The order of documents
    with equal keys is not specified by MongoDB; this sort puts the one
    inserted later first. *)
Fixpoint insert_desc (d : document) (l : list document) : list document :=
  match l with
  | [] => [d]
  | x :: r =>
      if String.leb (d_timestamp x) (d_timestamp d) then d :: l
      else x :: insert_desc d r
  end.

Definition sort_desc (l : list document) : list document :=
  fold_left (fun acc d => insert_desc d acc) l [].

(** [find({}, {"_id": 0}).sort("timestamp", -1).to_list(n)]. *)
Definition find_sorted (ok : bool) (n : nat) : M (list document) :=
  call Find ;;;
  fun w =>
    if ok then (Ok (firstn n (sort_desc (locations w))), w)
    else (Err PyMongoError, w).

(** [delete_many({})], giving [result.deleted_count]. *)
Definition delete_many (ok : bool) : M Z :=
  call DeleteMany ;;;
  fun w =>
    if ok then (Ok (Z.of_nat (List.length (locations w))), mkWorld [] (calls w))
    else (Err PyMongoError, w).

End Mongo.

(* ================================================================= *)
(** ** The routes *)

Section Server.

(** [os.environ.get('TELEGRAM_BOT_TOKEN')] and
    [os.environ.get('TELEGRAM_CHAT_ID')]. *)
Variable TELEGRAM_BOT_TOKEN : option string.
Variable TELEGRAM_CHAT_ID : option string.

(** pydantic's conversion to [float] of an [int] and of a string that
    may hold a number (the overflow, the exact grammar, the rounding):
    library code. *)
Variable coerce_float : jvalue -> option float.

(** Validation of a field annotated [float], in pydantic's default (lax)
    mode: a float is taken as it is, with no constraint on its value; a
    boolean counts as 1.0 or 0.0; an [int] and a string that may hold a
    number are converted; anything else is refused. *)
Definition validate_float (v : jvalue) : option float :=
  match v with
  | JFloat x => Some x
  | JBool b => Some (if b then PrimFloat.one else PrimFloat.zero)
  | JInt _ => coerce_float v
  | JStr s => if could_be_number s then coerce_float v else None
  | JNull | JArr _ | JObj _ => None
  end.

(** Validation of [accuracy: Optional[float] = None]. *)
Definition validate_optional_float (v : option jvalue) : option (option float) :=
  match v with
  | None => Some None
  | Some JNull => Some None
  | Some v =>
      match validate_float v with
      | Some x => Some (Some x)
      | None => None
      end
  end.

(** FastAPI validates the body as a [LocationCreate] before the route
    runs; fields that the model does not declare are ignored (pydantic's
    default). *)
Definition validate_LocationCreate (body : jvalue) : option LocationCreate :=
  match body with
  | JObj fields =>
      match dict_get "latitude" fields, dict_get "longitude" fields with
      | Some la, Some lo =>
          match validate_float la, validate_float lo,
                validate_optional_float (dict_get "accuracy" fields) with
          | Some la, Some lo, Some acc => Some (mkLocationCreate la lo acc)
          | _, _, _ => None
          end
      | _, _ => None
      end
  | _ => None
  end.

Definition str_of_env (v : option string) : string :=
  match v with Some s => s | None => "None" end.

Definition telegram_url : string :=
  "https://api.telegram.org/bot" ++ str_of_env TELEGRAM_BOT_TOKEN ++ "/sendLocation".

(** The body of the [try]: [inl msg] is an exception whose [str] is
    [msg], [inr j] the value of [response.json()]. *)
Definition try_post (o : post_outcome) : string + jvalue :=
  match o with
  | PostRaises msg => inl msg
  | PostReturns r =>
      if raise_for_status r then inl (exc_text r)
      else match body_json r with
           | Some j => inr j
           | None => inl (exc_text r)
           end
  end.

Definition send_location_to_telegram (o : post_outcome)
    (latitude longitude : float) : M jvalue :=
  call (RequestsPost telegram_url TELEGRAM_CHAT_ID latitude longitude) ;;;
  match try_post o with
  | inr j => ret j
  | inl e =>
      call (LogError ("Failed to send location to Telegram: " ++ e)) ;;;
      raise (HTTPException 500 ("Failed to send to Telegram: " ++ e))
  end.

(** The [Location] built from the fields of [input.model_dump()]: the
    two default factories draw from the environment, the rest is the
    input. *)
Definition new_Location (e : share_env) (input : LocationCreate) : Location :=
  mkLocation (Uuid.str (uuid4 e))
             (lc_latitude input) (lc_longitude input) (lc_accuracy input)
             (now e).

(** [doc = location_obj.model_dump()] and
    [doc['timestamp'] = doc['timestamp'].isoformat()]. *)
Definition model_dump_iso (l : Location) : document :=
  mkDocument (id l) (latitude l) (longitude l) (accuracy l)
             (Datetime.isoformat (timestamp l)).

Definition share_location (e : share_env) (input : LocationCreate) : M Location :=
  let location_obj := new_Location e input in
  let doc := model_dump_iso location_obj in
  Mongo.insert_one (insert_ok e) doc ;;;
  send_location_to_telegram (post e) (lc_latitude input) (lc_longitude input) ;;;
  ret location_obj.

(** The loop of [get_locations] on one document.  [isinstance(...,
    str)] holds for every document, the field being a string. *)
Definition restore (d : document) : result Location :=
  match Datetime.fromisoformat (d_timestamp d) with
  | Some t => Ok (mkLocation (d_id d) (d_latitude d) (d_longitude d) (d_accuracy d) t)
  | None => Err ValueError
  end.

Fixpoint restore_all (l : list document) : result (list Location) :=
  match l with
  | [] => Ok []
  | d :: r =>
      match restore d with
      | Ok x =>
          match restore_all r with
          | Ok xs => Ok (x :: xs)
          | Err e => Err e
          end
      | Err e => Err e
      end
  end.

Definition get_locations (ok : bool) : M (list Location) :=
  docs <- Mongo.find_sorted ok 100 ;;
  fun w => (restore_all docs, w).

Definition clear_locations (ok : bool) : M Z :=
  Mongo.delete_many ok.

(** *** Requests and responses *)

Inductive request : Type :=
| POST_location_share (body : jvalue) (e : share_env)
| GET_locations (ok : bool)
| DELETE_locations (ok : bool).

Inductive response : Type :=
| RLocation (l : Location)
| RLocations (l : list Location)
| RDeleted (deleted_count : Z)
| RError (e : error).

Definition respond {A : Type} (f : A -> response) (r : result A * world)
    : response * world :=
  match r with
  | (Ok a, w) => (f a, w)
  | (Err e, w) => (RError e, w)
  end.

Definition handle (rq : request) (w : world) : response * world :=
  match rq with
  | POST_location_share body e =>
      match validate_LocationCreate body with
      | Some input => respond RLocation (share_location e input w)
      | None => (RError RequestValidationError, w)
      end
  | GET_locations ok => respond RLocations (get_locations ok w)
  | DELETE_locations ok => respond RDeleted (clear_locations ok w)
  end.

(** Requests served one after the other. *)
Fixpoint run (rqs : list request) (w : world) : list response * world :=
  match rqs with
  | [] => ([], w)
  | rq :: rest =>
      let '(r, w1) := handle rq w in
      let '(rs, w2) := run rest w1 in
      (r :: rs, w2)
  end.

End Server.

(* ================================================================= *)
(** ** Vocabulary of the properties *)

(** [x] may stand before [y] in a descending listing. *)
Definition desc_text (x y : document) : Prop :=
  String.leb (d_timestamp y) (d_timestamp x) = true.

Definition is_post (ev : event) : bool :=
  match ev with RequestsPost _ _ _ _ => true | _ => false end.

(** The documents handed to [insert_one], in order. *)
Fixpoint inserts (evs : list event) : list document :=
  match evs with
  | [] => []
  | InsertOne d :: r => d :: inserts r
  | _ :: r => inserts r
  end.

(** The collection holds the dumps of [locs], whose timestamps are
    datetimes. *)
Definition holds (w : world) (locs : list Location) : Prop :=
  locations w = map model_dump_iso locs /\
  Forall (fun l => Datetime.valid (timestamp l) = true) locs.

(** [a] is listed before [b]: [a] is not older than [b]. *)
Definition not_older (a b : Location) : Prop :=
  Datetime.leb (timestamp b) (timestamp a) = true.

Definition newer (a b : Location) : Prop :=
  Datetime.ltb (timestamp b) (timestamp a) = true.




(** A body with float coordinates and, optionally, a float accuracy. *)
Definition location_body (la lo : float) (acc : option float) : jvalue :=
  JObj (("latitude", JFloat la) :: ("longitude", JFloat lo) ::
        match acc with Some a => [("accuracy", JFloat a)] | None => [] end).

(** The clock reading of a request is a datetime. *)
Definition clock_ok (rq : request) : Prop :=
  match rq with
  | POST_location_share _ e => Datetime.valid (now e) = true
  | _ => True
  end.

(** The UUID drawn for a request is a 128-bit integer. *)
Definition uuid_ok (rq : request) : Prop :=
  match rq with
  | POST_location_share _ e => Uuid.in_range (uuid4 e)
  | _ => True
  end.

(** The values of [uuid.uuid4()] and of [datetime.now(timezone.utc)] that
    the environment holds for the submissions, in order. *)
Fixpoint uuid_draws (rqs : list request) : list Z :=
  match rqs with
  | [] => []
  | POST_location_share _ e :: r => uuid4 e :: uuid_draws r
  | _ :: r => uuid_draws r
  end.

Fixpoint clock_readings (rqs : list request) : list Datetime.datetime :=
  match rqs with
  | [] => []
  | POST_location_share _ e :: r => now e :: clock_readings r
  | _ :: r => clock_readings r
  end.

(** The records that the submissions construct: one for each body that
    passes validation. *)
Fixpoint created (coerce : jvalue -> option float) (rqs : list request)
    : list Location :=
  match rqs with
  | [] => []
  | POST_location_share body e :: r =>
      match validate_LocationCreate coerce body with
      | Some input => new_Location e input :: created coerce r
      | None => created coerce r
      end
  | _ :: r => created coerce r
  end.

(** The records in the responses to the submissions that succeeded. *)
Fixpoint returned (rs : list response) : list Location :=
  match rs with
  | [] => []
  | RLocation l :: r => l :: returned r
  | _ :: r => returned r
  end.

Definition is_record (r : response) : Prop :=
  match r with RLocation _ => True | _ => False end.


Ltac peel_string h H :=
  destruct h as [|? h]; [discriminate H|]; simpl in H; injection H as H.

(* ================================================================= *)
(** ** Concrete runs *)

Module Sample.

Import PrimFloat.
#[local] Set Warnings "-inexact-float".

Definition lat : float := 28.6139%float.
Definition lon : float := 77.209%float.
Definition acc : float := 10.0%float.

Definition token : option string := Some "123456:TEST".
Definition chat : option string := Some "42".

(** A conversion that refuses every [int] and every string. *)
Definition floats_only (v : jvalue) : option float := None.

(** The body of the test suite. *)
Definition delhi : jvalue :=
  location_body lat lon (Some acc).

Definition delhi_input : LocationCreate :=
  mkLocationCreate lat lon (Some acc).







Definition noon : Datetime.datetime := Datetime.mkDatetime 2025 1 1 12 0 0 0.
Definition noon_and_a_bit : Datetime.datetime :=
  Datetime.mkDatetime 2025 1 1 12 0 0 250000.

Definition sent : post_outcome :=
  PostReturns (mkResponse 200 (Some (JObj [("ok", JBool true)])) "").

(** A response outside 200..299 that [raise_for_status] lets through
    and that [requests] does not follow as a redirect (300, Multiple
    Choices), with a JSON body. *)
Definition multiple_choices : post_outcome :=
  PostReturns (mkResponse 300 (Some (JObj [])) "").

Definition timed_out : post_outcome :=
  PostRaises "HTTPSConnectionPool: Read timed out. (read timeout=10)".

Definition env (u : Z) (t : Datetime.datetime) (o : post_outcome) : share_env :=
  mkShareEnv u t true o.

Definition serve_all := run token chat floats_only.
Definition serve := handle token chat floats_only.

(** Two submissions served within one tick of the clock. *)
Definition same_tick : list request :=
  [POST_location_share delhi (env 1 noon sent);
   POST_location_share delhi (env 2 noon sent)].

(** Two submissions between which the clock was set back. *)
Definition clock_set_back : list request :=
  [POST_location_share delhi (env 1 noon_and_a_bit sent);
   POST_location_share delhi (env 2 noon sent)].

(** Two submissions for which [uuid.uuid4()] returns the same UUID. *)
Definition same_uuid : list request :=
  [POST_location_share delhi (env 5 noon sent);
   POST_location_share delhi (env 5 noon_and_a_bit sent)].

(** Two submissions of the same coordinates with a clear in between. *)
Definition twice_with_clear : list request :=
  [POST_location_share delhi (env 1 noon sent);
   DELETE_locations true;
   POST_location_share delhi (env 2 noon_and_a_bit sent);
   GET_locations true].

(** The document that the second of these submissions writes. *)
Definition second_document : document :=
  model_dump_iso (new_Location (env 2 noon_and_a_bit sent) delhi_input).

End Sample.

(* ================================================================= *)
(** ** Further vocabulary: histories of requests *)

(** The call that pushes the coordinates of [l] to Telegram. *)
Definition push_of (TOKEN CHAT : option string) (l : Location) : event :=
  RequestsPost (telegram_url TOKEN) CHAT (latitude l) (longitude l).

(** The records whose insert succeeded, in order. *)
Fixpoint stored_by (coerce : jvalue -> option float) (rqs : list request)
    : list Location :=
  match rqs with
  | [] => []
  | POST_location_share body e :: r =>
      match validate_LocationCreate coerce body with
      | Some input =>
          if insert_ok e then new_Location e input :: stored_by coerce r
          else stored_by coerce r
      | None => stored_by coerce r
      end
  | _ :: r => stored_by coerce r
  end.

(** The number of documents after the requests, from [n] documents: one
    more for each submission that passes validation and whose insert
    succeeds, none after a clear that succeeds. *)
Fixpoint size_after (coerce : jvalue -> option float) (rqs : list request)
    (n : nat) : nat :=
  match rqs with
  | [] => n
  | POST_location_share body e :: r =>
      match validate_LocationCreate coerce body with
      | Some _ => if insert_ok e then size_after coerce r (S n)
                  else size_after coerce r n
      | None => size_after coerce r n
      end
  | DELETE_locations true :: r => size_after coerce r 0
  | _ :: r => size_after coerce r n
  end.

(** The messages given to [logger.error], in order. *)
Fixpoint logged (evs : list event) : list string :=
  match evs with
  | [] => []
  | LogError m :: r => m :: logged r
  | _ :: r => logged r
  end.

(** The details of the [HTTPException]s among the responses, in order. *)
Fixpoint details_raised (rs : list response) : list string :=
  match rs with
  | [] => []
  | RError (HTTPException _ d) :: r => d :: details_raised r
  | _ :: r => details_raised r
  end.

(* ================================================================= *)
(** ** The allowed origins *)

(** [s.split(',')]: the pieces of [s] between its commas; a string
    without comma, the empty one too, is its only piece. *)
Fixpoint split_comma (s : string) : list string :=
  match s with
  | EmptyString => [EmptyString]
  | String c r =>
      if Ascii.eqb c "," then EmptyString :: split_comma r
      else match split_comma r with
           | h :: t => String c h :: t
           | [] => [String c EmptyString]
           end
  end.

(** [os.environ.get('CORS_ORIGINS', '*').split(',')]. *)
Definition allow_origins (CORS_ORIGINS : option string) : list string :=
  split_comma (match CORS_ORIGINS with Some s => s | None => "*" end).

Fixpoint count_commas (s : string) : nat :=
  match s with
  | EmptyString => O
  | String c r => if Ascii.eqb c "," then S (count_commas r) else count_commas r
  end.

(** The requests other than listings, and the responses to them. *)
Definition is_listing (rq : request) : bool :=
  match rq with GET_locations _ => true | _ => false end.

Definition without_listings (rqs : list request) : list request :=
  filter (fun rq => negb (is_listing rq)) rqs.

Definition responses_without_listings (rqs : list request) (rs : list response)
    : list response :=
  map snd (filter (fun p => negb (is_listing (fst p))) (combine rqs rs)).

(* ================================================================= *)
(** ** The test client (backend_test.py) *)

Module Tester.

(** An entry of [self.test_results]. *)
Record test_result : Type := mkTestResult {
  test : string;
  success : bool;
  details : string;
  timestamp : string
}.

(** A [LocationSharingAPITester], with what it has printed so far. *)
Record tester : Type := mkTester {
  base_url : string;
  api_url : string;
  tests_run : Z;
  tests_passed : Z;
  test_results : list test_result;
  printed : list string          (* the lines given to [print] *)
}.

(** [__init__]. *)
Definition init (base_url : string) : tester :=
  mkTester base_url (base_url ++ "/api") 0 0 [] [].

Definition default_base_url : string :=
  "https://liveshare-bot.preview.emergentagent.com".

(** [isoformat()] of the naive [datetime.now()]: as [Datetime.isoformat],
    with no offset. *)
Definition isoformat_naive (d : Datetime.datetime) : string :=
  Digits.render 10 4 (Datetime.year d) ++ "-" ++
  Digits.render 10 2 (Datetime.month d) ++ "-" ++
  Digits.render 10 2 (Datetime.day d) ++ "T" ++
  Digits.render 10 2 (Datetime.hour d) ++ ":" ++
  Digits.render 10 2 (Datetime.minute d) ++ ":" ++
  Digits.render 10 2 (Datetime.second d) ++
  (if Datetime.microsecond d =? 0 then ""
   else "." ++ Digits.render 10 6 (Datetime.microsecond d)).

(** [log_test(name, success, details)], [clock] being what
    [datetime.now()] returns. *)
Definition log_test (clock : Datetime.datetime)
    (name : string) (success : bool) (details : string) (self : tester) : tester :=
  let tests_run := tests_run self + 1 in
  let tests_passed := if success then tests_passed self + 1 else tests_passed self in
  let line :=
    if success then "✅ " ++ name ++ " - PASSED"
    else "❌ " ++ name ++ " - FAILED: " ++ details in
  mkTester (base_url self) (api_url self) tests_run tests_passed
    (test_results self ++ [mkTestResult name success details (isoformat_naive clock)])%list
    (printed self ++ [line])%list.

(** One call of [log_test]. *)
Record logging : Type := mkLogging {
  at_time : Datetime.datetime;
  of_name : string;
  with_success : bool;
  with_details : string
}.

Definition log_all (ls : list logging) (self : tester) : tester :=
  fold_left
    (fun t l => log_test (at_time l) (of_name l) (with_success l) (with_details l) t)
    ls self.

(** [self.tests_passed == self.tests_run]: what [run_all_tests] returns. *)
Definition all_passed (self : tester) : bool :=
  tests_passed self =? tests_run self.

(** What [main] returns: [0 if success else 1]. *)
Definition exit_code (success : bool) : Z := if success then 0 else 1.

End Tester.

(** The entry that a call of [log_test] appends. *)
Definition entry_of (l : Tester.logging) : Tester.test_result :=
  Tester.mkTestResult (Tester.of_name l) (Tester.with_success l)
    (Tester.with_details l) (Tester.isoformat_naive (Tester.at_time l)).

(* ================================================================= *)
(** * Properties *)

(** ** Texts of timestamps, by example *)

Example isoformat_ex :
  Datetime.isoformat (Datetime.mkDatetime 2025 1 2 3 4 5 6) = "2025-01-02T03:04:05.000006+00:00".
Proof. reflexivity. Qed.

Example isoformat_ex0 :
  Datetime.isoformat (Datetime.mkDatetime 2025 11 22 13 14 15 0) = "2025-11-22T13:14:15+00:00".
Proof. reflexivity. Qed.

Example fromisoformat_ex :
  Datetime.fromisoformat "2025-01-02T03:04:05.000006+00:00" = Some (Datetime.mkDatetime 2025 1 2 3 4 5 6).
Proof. reflexivity. Qed.

Example fromisoformat_ex0 :
  Datetime.fromisoformat "2025-11-22T13:14:15+00:00" = Some (Datetime.mkDatetime 2025 11 22 13 14 15 0).
Proof. reflexivity. Qed.

(** ** Numerals *)

Lemma digit_code_range (d : Z) :
  0 <= d < 16 -> 48 <= Digits.digit_code d < 256.
Proof.
  unfold Digits.digit_code. destruct (Z.ltb_spec d 10); lia.
Qed.

Lemma N_of_digit_char (d : Z) :
  0 <= d < 16 ->
  Z.of_N (N_of_ascii (Digits.digit_char d)) = Digits.digit_code d.
Proof.
  intros Hd. unfold Digits.digit_char.
  pose proof (digit_code_range d Hd) as Hc.
  rewrite N_ascii_embedding by lia. lia.
Qed.

Lemma digit_char_compare (a b : Z) :
  0 <= a < 16 -> 0 <= b < 16 ->
  Ascii.compare (Digits.digit_char a) (Digits.digit_char b) = (a ?= b).
Proof.
  intros Ha Hb. unfold Ascii.compare.
  rewrite <- N2Z.inj_compare, !N_of_digit_char by assumption.
  unfold Digits.digit_code.
  destruct (Z.ltb_spec a 10), (Z.ltb_spec b 10), (Z.compare_spec a b);
    try (apply Z.compare_eq_iff; lia);
    try (apply Z.compare_lt_iff; lia);
    try (apply Z.compare_gt_iff; lia).
Qed.

Lemma digit_val_char (d : Z) :
  0 <= d < 10 -> Digits.digit_val (Digits.digit_char d) = Some d.
Proof.
  intros Hd. unfold Digits.digit_val.
  rewrite N_of_digit_char by lia.
  unfold Digits.digit_code.
  destruct (Z.ltb_spec d 10); [|lia].
  destruct (Z.leb_spec 48 (48 + d)); [|lia].
  destruct (Z.leb_spec (48 + d) 57); [|lia].
  cbn [andb]. f_equal. lia.
Qed.

Lemma length_render (base : Z) (w : nat) (n : Z) :
  String.length (Digits.render base w n) = w.
Proof.
  induction w; simpl; congruence.
Qed.

(** The low [S w] digits split into the top digit and the low [w]. *)
Lemma mod_pow_succ (base : Z) (w : nat) (n : Z) :
  0 < base ->
  n mod base ^ Z.of_nat (S w) =
  ((n / base ^ Z.of_nat w) mod base) * base ^ Z.of_nat w + n mod base ^ Z.of_nat w.
Proof.
  intros Hb.
  rewrite Nat2Z.inj_succ, Z.pow_succ_r by lia.
  assert (0 < base ^ Z.of_nat w) by (apply Z.pow_pos_nonneg; lia).
  rewrite (Z.mul_comm base), Z.rem_mul_r by lia. lia.
Qed.

Lemma compare_digits_lex (B dx dy rx ry : Z) :
  0 <= rx < B -> 0 <= ry < B ->
  (dx * B + rx ?= dy * B + ry) = Datetime.lex (dx ?= dy) (rx ?= ry).
Proof.
  intros Hx Hy.
  destruct (Z.compare_spec dx dy) as [E|L|G]; simpl.
  - subst. destruct (Z.compare_spec rx ry).
    + apply Z.compare_eq_iff; lia.
    + apply Z.compare_lt_iff; lia.
    + apply Z.compare_gt_iff; lia.
  - apply Z.compare_lt_iff; nia.
  - apply Z.compare_gt_iff; nia.
Qed.

(** Two numerals of the same width compare as the numbers they print. *)
Lemma render_compare (base : Z) (w : nat) (x y : Z) (s t : string) :
  2 <= base <= 16 ->
  String.compare (Digits.render base w x ++ s) (Digits.render base w y ++ t) =
  Datetime.lex (x mod base ^ Z.of_nat w ?= y mod base ^ Z.of_nat w)
               (String.compare s t).
Proof.
  intros Hb. induction w as [|w IH].
  - simpl. rewrite !Z.mod_1_r. reflexivity.
  - cbn [Digits.render String.append String.compare].
    assert (0 < base ^ Z.of_nat w) by (apply Z.pow_pos_nonneg; lia).
    assert (D : forall z, 0 <= z mod base < 16)
      by (intros z; pose proof (Z.mod_pos_bound z base); lia).
    rewrite digit_char_compare by apply D.
    rewrite IH, !(mod_pow_succ base w) by lia.
    rewrite compare_digits_lex by (apply Z.mod_pos_bound; lia).
    destruct (_ mod base ?= _ mod base); reflexivity.
Qed.

Lemma render_mod (base : Z) (w : nat) (x y : Z) :
  2 <= base <= 16 ->
  Digits.render base w x = Digits.render base w y ->
  x mod base ^ Z.of_nat w = y mod base ^ Z.of_nat w.
Proof.
  intros Hb E.
  pose proof (render_compare base w x y "" "" Hb) as C.
  rewrite E in C.
  assert (R : forall u, String.compare u u = Eq).
  { induction u as [|c u IHu]; simpl; [reflexivity|].
    unfold Ascii.compare. rewrite N.compare_refl. exact IHu. }
  rewrite R in C. simpl in C.
  destruct (Z.compare_spec (x mod base ^ Z.of_nat w) (y mod base ^ Z.of_nat w));
    simpl in C; congruence.
Qed.

Lemma take_digits_render (w : nat) (acc n : Z) (rest : string) :
  Digits.take_digits w acc (Digits.render 10 w n ++ rest) =
  Some (acc * 10 ^ Z.of_nat w + n mod 10 ^ Z.of_nat w, rest).
Proof.
  revert acc. induction w as [|w IH]; intros acc.
  - simpl. rewrite Z.mod_1_r. do 2 f_equal. lia.
  - cbn [Digits.render String.append Digits.take_digits].
    rewrite digit_val_char by (apply Z.mod_pos_bound; lia).
    rewrite IH, (mod_pow_succ 10 w) by lia.
    rewrite Nat2Z.inj_succ, Z.pow_succ_r by lia.
    do 2 f_equal. lia.
Qed.

(** ** ISO texts of timestamps *)

Lemma valid_bounds (d : Datetime.datetime) :
  Datetime.valid d = true ->
  0 <= Datetime.year d < 10 ^ 4 /\ 0 <= Datetime.month d < 10 ^ 2 /\
  0 <= Datetime.day d < 10 ^ 2 /\ 0 <= Datetime.hour d < 10 ^ 2 /\
  0 <= Datetime.minute d < 10 ^ 2 /\ 0 <= Datetime.second d < 10 ^ 2 /\
  0 <= Datetime.microsecond d < 10 ^ 6.
Proof.
  unfold Datetime.valid. intros H.
  repeat (apply andb_prop in H; destruct H as [H ?]).
  assert (Datetime.days_in_month (Datetime.year d) (Datetime.month d) <= 31).
  { unfold Datetime.days_in_month.
    repeat match goal with |- context [if ?b then _ else _] => destruct b end; lia. }
  change (10 ^ 4) with 10000. change (10 ^ 2) with 100.
  change (10 ^ 6) with 1000000. lia.
Qed.

Lemma string_compare_refl (s : string) : String.compare s s = Eq.
Proof.
  induction s as [|c s IH]; simpl; [reflexivity|].
  unfold Ascii.compare. rewrite N.compare_refl. exact IH.
Qed.

Lemma string_compare_cons (c : ascii) (s t : string) :
  String.compare (String c s) (String c t) = String.compare s t.
Proof.
  simpl. unfold Ascii.compare. rewrite N.compare_refl. reflexivity.
Qed.

(** The tail of an ISO text: the fraction, if any, and the offset. *)
Lemma fraction_compare (a b : Z) :
  0 <= a < 10 ^ 6 -> 0 <= b < 10 ^ 6 ->
  String.compare
    (if a =? 0 then Datetime.utc_suffix
     else "." ++ Digits.render 10 6 a ++ Datetime.utc_suffix)
    (if b =? 0 then Datetime.utc_suffix
     else "." ++ Digits.render 10 6 b ++ Datetime.utc_suffix) = (a ?= b).
Proof.
  intros Ha Hb.
  destruct (Z.eqb_spec a 0) as [Ea|Na], (Z.eqb_spec b 0) as [Eb|Nb].
  - subst. reflexivity.
  - subst. symmetry. apply Z.compare_lt_iff. lia.
  - subst. symmetry. apply Z.compare_gt_iff. lia.
  - cbn [String.append]. rewrite string_compare_cons.
    rewrite render_compare by lia.
    change (Z.of_nat 6) with 6.
    rewrite !Z.mod_small by lia.
    rewrite string_compare_refl.
    destruct (a ?= b); reflexivity.
Qed.

(** MongoDB's order on the stored texts is the order of the instants. *)
Lemma isoformat_compare (a b : Datetime.datetime) :
  Datetime.valid a = true -> Datetime.valid b = true ->
  String.compare (Datetime.isoformat a) (Datetime.isoformat b) =
  Datetime.compare a b.
Proof.
  intros Va Vb.
  apply valid_bounds in Va. apply valid_bounds in Vb.
  unfold Datetime.isoformat, Datetime.compare.
  repeat (rewrite render_compare by lia;
          cbn [String.append]; rewrite ?string_compare_cons).
  rewrite fraction_compare by lia.
  change (Z.of_nat 4) with 4. change (Z.of_nat 2) with 2.
  rewrite !Z.mod_small by lia.
  reflexivity.
Qed.

Lemma isoformat_leb (a b : Datetime.datetime) :
  Datetime.valid a = true -> Datetime.valid b = true ->
  String.leb (Datetime.isoformat a) (Datetime.isoformat b) = Datetime.leb a b.
Proof.
  intros Va Vb. unfold String.leb, Datetime.leb.
  rewrite isoformat_compare by assumption. reflexivity.
Qed.

(** Reading back what [isoformat] wrote gives the same instant. *)
Lemma fromisoformat_isoformat (d : Datetime.datetime) :
  Datetime.valid d = true ->
  Datetime.fromisoformat (Datetime.isoformat d) = Some d.
Proof.
  intros V. pose proof (valid_bounds d V) as B.
  unfold Datetime.isoformat, Datetime.fromisoformat.
  repeat (rewrite take_digits_render;
          cbn [Datetime.bind String.append Digits.expect Ascii.eqb Bool.eqb]).
  change (Z.of_nat 4) with 4. change (Z.of_nat 2) with 2.
  rewrite !Z.mod_small by lia. cbn [Z.mul Z.add].
  destruct d as [y mo dd h mi s us]; cbn [Datetime.microsecond] in *.
  cbn [Datetime.year Datetime.month Datetime.day Datetime.hour
       Datetime.minute Datetime.second] in *.
  destruct (Z.eqb_spec us 0) as [E|N].
  - subst us. cbn. rewrite V. reflexivity.
  - cbn [String.append]. rewrite take_digits_render.
    change (Z.of_nat 6) with 6. rewrite Z.mod_small by lia.
    cbn [Datetime.bind Z.mul Z.add]. rewrite String.eqb_refl, V. reflexivity.
Qed.

(** ** Identifiers *)

Lemma hyphenate_inj (h k : string) :
  String.length h = 32%nat -> String.length k = 32%nat ->
  Uuid.hyphenate h = Uuid.hyphenate k -> h = k.
Proof.
  intros Hh Hk E.
  do 32 peel_string h Hh. destruct h; [|discriminate Hh].
  do 32 peel_string k Hk. destruct k; [|discriminate Hk].
  cbn in E. injection E as ->. intros; subst. reflexivity.
Qed.

Lemma length_hyphenate (h : string) :
  String.length h = 32%nat -> String.length (Uuid.hyphenate h) = 36%nat.
Proof.
  intros Hh.
  do 32 peel_string h Hh. destruct h; [|discriminate Hh].
  reflexivity.
Qed.

(** [str] of a UUID has 36 characters. *)
Lemma length_uuid_str (n : Z) : String.length (Uuid.str n) = 36%nat.
Proof.
  apply length_hyphenate, length_render.
Qed.

(** Two UUIDs with the same text are the same UUID. *)
Lemma uuid_str_inj (a b : Z) :
  Uuid.in_range a -> Uuid.in_range b -> Uuid.str a = Uuid.str b -> a = b.
Proof.
  unfold Uuid.in_range. intros Ha Hb E.
  apply hyphenate_inj in E; try apply length_render.
  apply render_mod in E; [|lia].
  change (16 ^ Z.of_nat 32) with (2 ^ 128) in E.
  rewrite !Z.mod_small in E by assumption. exact E.
Qed.

(** ** The sort of the collection *)

Lemma string_leb_trans (a b c : string) :
  String.leb a b = true -> String.leb b c = true -> String.leb a c = true.
Proof.
  unfold String.leb. revert b c.
  induction a as [|x a IH]; intros [|y b] [|z c]; simpl; try congruence.
  unfold Ascii.compare.
  destruct (N.compare_spec (N_of_ascii x) (N_of_ascii y)) as [E1|L1|G1];
    destruct (N.compare_spec (N_of_ascii y) (N_of_ascii z)) as [E2|L2|G2];
    destruct (N.compare_spec (N_of_ascii x) (N_of_ascii z)) as [E3|L3|G3];
    try congruence; try lia.
  apply IH.
Qed.

Lemma insert_desc_perm (d : document) (l : list document) :
  Permutation (Mongo.insert_desc d l) (d :: l).
Proof.
  induction l as [|x r IH]; simpl.
  - apply Permutation_refl.
  - destruct (String.leb (d_timestamp x) (d_timestamp d)).
    + apply Permutation_refl.
    + eapply perm_trans; [apply perm_skip, IH | apply perm_swap].
Qed.

Lemma sort_desc_perm_acc (l acc : list document) :
  Permutation (fold_left (fun a d => Mongo.insert_desc d a) l acc) (acc ++ l).
Proof.
  revert acc. induction l as [|d l IH]; intros acc; simpl.
  - rewrite app_nil_r. apply Permutation_refl.
  - eapply perm_trans; [apply IH|].
    eapply perm_trans; [apply Permutation_app_tail, insert_desc_perm|].
    simpl. apply Permutation_middle.
Qed.

Lemma sort_desc_perm (l : list document) :
  Permutation (Mongo.sort_desc l) l.
Proof.
  apply (sort_desc_perm_acc l []).
Qed.

Lemma insert_desc_hd (d y : document) (l : list document) :
  HdRel desc_text y l -> desc_text y d -> HdRel desc_text y (Mongo.insert_desc d l).
Proof.
  intros H Hyd. destruct l as [|x r]; simpl.
  - constructor. exact Hyd.
  - destruct (String.leb (d_timestamp x) (d_timestamp d)).
    + constructor. exact Hyd.
    + constructor. inversion H; assumption.
Qed.

Lemma insert_desc_sorted (d : document) (l : list document) :
  Sorted desc_text l -> Sorted desc_text (Mongo.insert_desc d l).
Proof.
  induction 1 as [|x r Hs IH Hhd]; simpl.
  - repeat constructor.
  - destruct (String.leb (d_timestamp x) (d_timestamp d)) eqn:E.
    + constructor; [constructor; assumption|]. constructor. exact E.
    + constructor; [exact IH|].
      apply insert_desc_hd; [exact Hhd|].
      unfold desc_text.
      destruct (String.leb_total (d_timestamp x) (d_timestamp d)); congruence.
Qed.

Lemma sort_desc_sorted_acc (l acc : list document) :
  Sorted desc_text acc ->
  Sorted desc_text (fold_left (fun a d => Mongo.insert_desc d a) l acc).
Proof.
  revert acc. induction l as [|d l IH]; intros acc H; simpl.
  - exact H.
  - apply IH, insert_desc_sorted, H.
Qed.

Lemma sort_desc_sorted (l : list document) :
  StronglySorted desc_text (Mongo.sort_desc l).
Proof.
  apply Sorted_StronglySorted.
  - intros x y z Hxy Hyz. unfold desc_text in *.
    eapply string_leb_trans; eassumption.
  - apply sort_desc_sorted_acc. constructor.
Qed.

Lemma In_firstn {A : Type} (n : nat) (l : list A) (y : A) :
  In y (firstn n l) -> In y l.
Proof.
  revert n. induction l as [|x l IH]; intros [|n]; simpl; try tauto.
  intros [E|H]; [left; exact E | right; eapply IH; exact H].
Qed.

Lemma StronglySorted_firstn {A : Type} (R : A -> A -> Prop) (n : nat) (l : list A) :
  StronglySorted R l -> StronglySorted R (firstn n l).
Proof.
  intros H. revert n. induction H as [|x l Hs IH Hall]; intros [|n]; simpl;
    try constructor.
  - apply IH.
  - rewrite Forall_forall in *. intros y Hy. apply Hall.
    eapply In_firstn. exact Hy.
Qed.

(** ** The routes *)

Lemma datetime_compare_eq (a b : Datetime.datetime) :
  Datetime.compare a b = Eq -> a = b.
Proof.
  destruct a, b. unfold Datetime.compare, Datetime.lex. cbn.
  repeat match goal with
         | |- context [?x ?= ?y] => destruct (Z.compare_spec x y); try discriminate
         end.
  intros _. congruence.
Qed.

Lemma strict_of_nodup (ls : list Location) :
  StronglySorted not_older ls -> NoDup (map timestamp ls) ->
  StronglySorted newer ls.
Proof.
  induction 1 as [|l ls S IH F]; cbn; intros N; constructor.
  - apply IH. inversion N; assumption.
  - inversion N as [|? ? Nin _]; subst.
    rewrite Forall_forall in *. intros y Hy. specialize (F y Hy).
    unfold not_older, newer, Datetime.leb, Datetime.ltb in *.
    destruct (Datetime.compare (timestamp y) (timestamp l)) eqn:E;
      try reflexivity; try discriminate.
    apply datetime_compare_eq in E. exfalso. apply Nin.
    rewrite <- E. apply in_map, Hy.
Qed.

Section ServerFacts.

Variable TOKEN CHAT : option string.
Variable coerce : jvalue -> option float.

Abbreviation share := (share_location TOKEN CHAT).
Abbreviation serve := (handle TOKEN CHAT coerce).
Abbreviation serve_all := (run TOKEN CHAT coerce).
Abbreviation validate := (validate_LocationCreate coerce).

Lemma share_location_eq (e : share_env) (input : LocationCreate) (w : world) :
  let loc := new_Location e input in
  let doc := model_dump_iso loc in
  let posted := RequestsPost (telegram_url TOKEN) CHAT
                  (lc_latitude input) (lc_longitude input) in
  share e input w =
  if insert_ok e then
    match try_post (post e) with
    | inr _ =>
        (Ok loc, mkWorld (locations w ++ [doc])
                         ((calls w ++ [InsertOne doc]) ++ [posted]))
    | inl m =>
        (Err (HTTPException 500 ("Failed to send to Telegram: " ++ m)),
         mkWorld (locations w ++ [doc])
                 (((calls w ++ [InsertOne doc]) ++ [posted]) ++
                  [LogError ("Failed to send location to Telegram: " ++ m)]))
    end%list
  else (Err PyMongoError, mkWorld (locations w) (calls w ++ [InsertOne doc])%list).
Proof.
  unfold share_location, Mongo.insert_one, send_location_to_telegram,
    bind, call, ret, raise.
  cbn. destruct (insert_ok e); cbn; [|reflexivity].
  destruct (try_post (post e)); reflexivity.
Qed.

Lemma get_locations_eq (ok : bool) (w : world) :
  get_locations ok w =
  if ok then (restore_all (firstn 100 (Mongo.sort_desc (locations w))),
              mkWorld (locations w) (calls w ++ [Find]))
  else (Err PyMongoError, mkWorld (locations w) (calls w ++ [Find])).
Proof.
  unfold get_locations, Mongo.find_sorted, bind, call. cbn.
  destruct ok; reflexivity.
Qed.

Lemma clear_locations_eq (ok : bool) (w : world) :
  clear_locations ok w =
  if ok then (Ok (Z.of_nat (List.length (locations w))),
              mkWorld [] (calls w ++ [DeleteMany]))
  else (Err PyMongoError, mkWorld (locations w) (calls w ++ [DeleteMany])).
Proof.
  unfold clear_locations, Mongo.delete_many, bind, call. cbn.
  destruct ok; reflexivity.
Qed.

(** Reading a document written by [share_location] gives the record
    back. *)
Lemma restore_dump (l : Location) :
  Datetime.valid (timestamp l) = true ->
  restore (model_dump_iso l) = Ok l.
Proof.
  intros V. unfold restore, model_dump_iso.
  cbn [d_timestamp d_id d_latitude d_longitude d_accuracy].
  rewrite fromisoformat_isoformat by exact V. destruct l; reflexivity.
Qed.

Lemma restore_all_dump (ls : list Location) :
  Forall (fun l => Datetime.valid (timestamp l) = true) ls ->
  restore_all (map model_dump_iso ls) = Ok ls.
Proof.
  induction 1 as [|l ls V _ IH]; cbn [map restore_all]; [reflexivity|].
  rewrite restore_dump, IH by exact V. reflexivity.
Qed.

Lemma sorted_dump (ls : list Location) :
  Forall (fun l => Datetime.valid (timestamp l) = true) ls ->
  StronglySorted desc_text (map model_dump_iso ls) ->
  StronglySorted not_older ls.
Proof.
  induction 1 as [|l ls V Vs IH]; cbn [map]; intros S; [constructor|].
  inversion S as [|? ? S' F]; subst. constructor; [apply IH, S'|].
  rewrite Forall_map in F. rewrite Forall_forall in *.
  intros y Hy. specialize (F y Hy). specialize (Vs y Hy).
  unfold desc_text, not_older, model_dump_iso in *.
  cbn [d_timestamp] in F.
  rewrite isoformat_leb in F by assumption. exact F.
Qed.

(** What the listing returns on a collection written by this server:
    the newest 100 of the records, newest first. *)
Lemma get_locations_holds (w : world) (locs : list Location) :
  holds w locs ->
  exists sorted,
    Permutation sorted locs /\
    StronglySorted not_older sorted /\
    get_locations true w =
      (Ok (firstn 100 sorted), mkWorld (locations w) (calls w ++ [Find])).
Proof.
  intros [Hst V].
  pose proof (sort_desc_perm (locations w)) as P.
  rewrite Hst in P.
  apply Permutation_map_inv in P. destruct P as [sorted [E P]].
  assert (Vs : Forall (fun l => Datetime.valid (timestamp l) = true) sorted).
  { rewrite Forall_forall in *. intros x Hx. apply V.
    eapply Permutation_in; [apply Permutation_sym, P | exact Hx]. }
  exists sorted. split; [apply Permutation_sym, P|]. split.
  - apply sorted_dump; [exact Vs|]. rewrite <- E, <- Hst. apply sort_desc_sorted.
  - rewrite get_locations_eq, Hst, E, firstn_map.
    rewrite restore_all_dump; [reflexivity|].
    rewrite Forall_forall in *. intros x Hx. apply Vs.
    eapply In_firstn. exact Hx.
Qed.

(** *** Store, then notify *)

(** C1 (as amended).  [share_location] hands the document to
    [insert_one] before it posts to Telegram.  If the insert fails the
    route fails with the driver's error (a StorageError), the collection
    is as before and nothing is posted.  If the insert succeeds the
    document is in the collection whatever happens next, with no delete;
    the route then fails with [HTTPException 500] (a NotificationError)
    exactly when the [try] block raises: [requests.post] raises (network
    error, timeout), the status is between 400 and 599, or the body is
    not JSON.  Any other status with a JSON body is a success. *)
Theorem share_location_store_then_notify
    (e : share_env) (input : LocationCreate) (w : world) :
  let doc := model_dump_iso (new_Location e input) in
  let posted := RequestsPost (telegram_url TOKEN) CHAT
                  (lc_latitude input) (lc_longitude input) in
  let r := fst (share e input w) in
  let w' := snd (share e input w) in
  (insert_ok e = false ->
     r = Err PyMongoError /\ kind_of PyMongoError = StorageError /\
     locations w' = locations w /\
     calls w' = (calls w ++ [InsertOne doc])%list) /\
  (insert_ok e = true ->
     locations w' = (locations w ++ [doc])%list /\
     (forall m, try_post (post e) = inl m ->
        r = Err (HTTPException 500 ("Failed to send to Telegram: " ++ m)) /\
        kind_of (HTTPException 500 ("Failed to send to Telegram: " ++ m))
          = NotificationError /\
        calls w' =
          (calls w ++
           [InsertOne doc; posted;
            LogError ("Failed to send location to Telegram: " ++ m)])%list) /\
     (forall j, try_post (post e) = inr j ->
        r = Ok (new_Location e input) /\
        calls w' = (calls w ++ [InsertOne doc; posted])%list)) /\
  (forall m, try_post (PostRaises m) = inl m) /\
  (forall rsp, 400 <= status_code rsp < 600 ->
     try_post (PostReturns rsp) = inl (exc_text rsp)) /\
  (forall rsp, body_json rsp = None ->
     try_post (PostReturns rsp) = inl (exc_text rsp)) /\
  (forall rsp j, ~ 400 <= status_code rsp < 600 -> body_json rsp = Some j ->
     try_post (PostReturns rsp) = inr j).
Proof.
  cbv zeta. rewrite share_location_eq. cbv zeta.
  split; [|split; [|repeat split]].
  - intros ->. cbn. auto.
  - intros ->. destruct (try_post (post e)) as [m|j] eqn:T; cbn;
      (split; [reflexivity|]); split.
    + intros ? [= <-]. rewrite <- !app_assoc. cbn. auto.
    + intros ? [=].
    + intros ? [=].
    + intros ? _. rewrite <- !app_assoc. cbn. auto.
  - intros rsp H. unfold try_post, raise_for_status.
    destruct (Z.leb_spec 400 (status_code rsp)); [|lia].
    destruct (Z.ltb_spec (status_code rsp) 600); [|lia]. reflexivity.
  - intros rsp H. unfold try_post. rewrite H.
    destruct (raise_for_status rsp); reflexivity.
  - intros rsp j H J. unfold try_post, raise_for_status. rewrite J.
    destruct (Z.leb_spec 400 (status_code rsp));
      destruct (Z.ltb_spec (status_code rsp) 600); cbn; try reflexivity; lia.
Qed.

(** *** Validation comes first *)



(** *** The record returned *)


(** *** Clearing *)

(** C4.  [clear_locations] empties the collection whatever it holds and
    reports as many deletions as there were documents; the listing that
    follows is empty. *)
Theorem clear_locations_deletes_all (w : world) :
  let r := serve (DELETE_locations true) w in
  fst r = RDeleted (Z.of_nat (List.length (locations w))) /\
  locations (snd r) = [] /\
  fst (serve (GET_locations true) (snd r)) = RLocations [].
Proof.
  cbv zeta. unfold handle, respond. rewrite clear_locations_eq.
  cbn [fst snd]. rewrite get_locations_eq. cbn. auto.
Qed.

(** *** Unknown fields *)




(** *** Sequences of requests *)

Lemma inserts_app (a b : list event) :
  inserts (a ++ b) = (inserts a ++ inserts b)%list.
Proof.
  induction a as [|ev a IH]; [reflexivity|].
  destruct ev; cbn; rewrite IH; reflexivity.
Qed.

(** One request: the response, the collection and the inserts after
    it. *)
Lemma serve_effect (rq : request) (w : world) :
  let w' := snd (serve rq w) in
  inserts (calls w') =
    (inserts (calls w) ++ map model_dump_iso (created coerce [rq]))%list /\
  (locations w' = [] \/
   locations w' = locations w \/
   locations w' = (locations w ++ map model_dump_iso (created coerce [rq]))%list) /\
  (forall l, fst (serve rq w) = RLocation l ->
     created coerce [rq] = [l] /\
     locations w' = (locations w ++ [model_dump_iso l])%list /\
     exists body e, rq = POST_location_share body e /\ timestamp l = now e).
Proof.
  cbv zeta. destruct rq as [body e|ok|ok]; unfold handle, respond; cbn [created].
  - destruct (validate body) as [input|] eqn:V.
    + rewrite share_location_eq. cbv zeta.
      destruct (insert_ok e); [destruct (try_post (post e))|]; cbn;
        rewrite ?inserts_app; cbn; rewrite ?app_nil_r;
        (split; [reflexivity|]); (split; [auto|]); intros l [=]; subst.
      split; [reflexivity|]. split; [reflexivity|]. eauto.
    + cbn. rewrite app_nil_r. split; [reflexivity|]. split; [auto|]. intros l [=].
  - rewrite get_locations_eq.
    destruct ok; [destruct (restore_all _)|]; cbn;
      rewrite inserts_app, app_nil_r; cbn; rewrite app_nil_r;
      (split; [reflexivity|]); (split; [auto|]); intros l [=].
  - rewrite clear_locations_eq.
    destruct ok; cbn; rewrite inserts_app, app_nil_r; cbn; rewrite app_nil_r;
      (split; [reflexivity|]); (split; [auto|]); intros l [=].
Qed.

Lemma created_cons (rq : request) (rqs : list request) :
  created coerce (rq :: rqs) = (created coerce [rq] ++ created coerce rqs)%list.
Proof.
  destruct rq as [body e| |]; cbn; try reflexivity.
  destruct (validate body); reflexivity.
Qed.

Lemma serve_all_cons (rq : request) (rqs : list request) (w : world) :
  serve_all (rq :: rqs) w =
  (fst (serve rq w) :: fst (serve_all rqs (snd (serve rq w))),
   snd (serve_all rqs (snd (serve rq w)))).
Proof.
  cbn [run]. destruct (serve rq w) as [r w1]. cbn [fst snd].
  destruct (serve_all rqs w1). reflexivity.
Qed.

Lemma serve_all_inserts (rqs : list request) (w : world) :
  inserts (calls (snd (serve_all rqs w))) =
  (inserts (calls w) ++ map model_dump_iso (created coerce rqs))%list.
Proof.
  revert w. induction rqs as [|rq rqs IH]; intros w.
  - cbn. rewrite app_nil_r. reflexivity.
  - rewrite serve_all_cons, created_cons. cbn [snd].
    rewrite IH. destruct (serve_effect rq w) as [E _]. cbv zeta in E.
    rewrite E, map_app, app_assoc. reflexivity.
Qed.

(** Every document of the collection was handed to [insert_one]. *)
Lemma serve_all_stored (rqs : list request) (w : world) (d : document) :
  In d (locations (snd (serve_all rqs w))) ->
  In d (locations w) \/ In d (map model_dump_iso (created coerce rqs)).
Proof.
  revert w. induction rqs as [|rq rqs IH]; intros w; [cbn; auto|].
  rewrite serve_all_cons, created_cons, map_app. cbn [snd]. intros H.
  apply IH in H. rewrite in_app_iff. destruct H as [H|H]; [|auto].
  destruct (serve_effect rq w) as (_ & [E|[E|E]] & _); cbv zeta in E;
    rewrite E in H.
  - destruct H.
  - auto.
  - apply in_app_or in H. tauto.
Qed.

Lemma returned_created (rqs : list request) (w : world) (l : Location) :
  In l (returned (fst (serve_all rqs w))) -> In l (created coerce rqs).
Proof.
  revert w. induction rqs as [|rq rqs IH]; intros w; [cbn; auto|].
  rewrite serve_all_cons, created_cons, in_app_iff. cbn [fst returned].
  destruct (fst (serve rq w)) as [l0| | |] eqn:R; try (intros H; right; eapply IH, H).
  destruct (serve_effect rq w) as (_ & _ & C). destruct (C l0 R) as (-> & _).
  intros [<-|H]; [left; left; reflexivity | right; eapply IH, H].
Qed.


Lemma created_uuid (rqs : list request) (l : Location) :
  In l (created coerce rqs) ->
  exists u, In u (uuid_draws rqs) /\ id l = Uuid.str u.
Proof.
  induction rqs as [|[body e| |] rqs IH]; cbn; try tauto; auto.
  destruct (validate body); cbn; intros H.
  - destruct H as [<-|H]; [eauto|]. destruct (IH H) as (u & ? & ?); eauto.
  - destruct (IH H) as (u & ? & ?); eauto.
Qed.

Lemma created_valid (rqs : list request) :
  Forall clock_ok rqs ->
  Forall (fun l => Datetime.valid (timestamp l) = true) (created coerce rqs).
Proof.
  induction 1 as [|[body e| |] rqs C _ IH]; cbn; auto.
  destruct (validate body); auto.
Qed.

(** The collection always holds dumps of records that were created. *)
Lemma serve_all_holds (rqs : list request) (w : world) (locs : list Location) :
  holds w locs -> Forall clock_ok rqs ->
  exists locs',
    holds (snd (serve_all rqs w)) locs' /\
    incl locs' (locs ++ created coerce rqs).
Proof.
  revert w locs. induction rqs as [|rq rqs IH]; intros w locs H C.
  - exists locs. split; [exact H|]. cbn. rewrite app_nil_r. apply incl_refl.
  - inversion C as [|? ? C1 C2]; subst.
    rewrite serve_all_cons, created_cons. cbn [snd].
    assert (S : exists locs1, holds (snd (serve rq w)) locs1 /\
                              incl locs1 (locs ++ created coerce [rq])).
    { destruct H as [Hl Hv].
      destruct (serve_effect rq w) as (_ & [E|[E|E]] & _); cbv zeta in E.
      - exists []. split; [split; [exact E | constructor] | intros x []].
      - exists locs. split; [split; [congruence | exact Hv] | apply incl_appl, incl_refl].
      - exists (locs ++ created coerce [rq])%list. split; [|apply incl_refl].
        split; [rewrite E, Hl, map_app; reflexivity|].
        apply Forall_app. split; [exact Hv|].
        apply created_valid. constructor; [exact C1 | constructor]. }
    destruct S as (locs1 & H1 & I1).
    destruct (IH _ _ H1 C2) as (locs' & H' & I').
    exists locs'. split; [exact H'|].
    intros x Hx. apply I' in Hx. rewrite app_assoc.
    apply in_app_or in Hx. apply in_or_app. destruct Hx; auto.
Qed.

Lemma holds_empty : holds empty_world [].
Proof. split; [reflexivity | constructor]. Qed.

(** *** Identifiers *)

Lemma uuid_draws_in_range (rqs : list request) (u : Z) :
  Forall uuid_ok rqs -> In u (uuid_draws rqs) -> Uuid.in_range u.
Proof.
  induction 1 as [|[body e| |] rqs U _ IH]; cbn; try tauto.
  intros [<-|H]; [exact U | exact (IH H)].
Qed.

Lemma created_ids_nodup (rqs : list request) :
  Forall uuid_ok rqs -> NoDup (uuid_draws rqs) ->
  NoDup (map id (created coerce rqs)).
Proof.
  induction 1 as [|[body e| |] rqs U Us IH]; cbn; intros N;
    try (apply IH, N); [constructor|].
  inversion N as [|? ? Nin N']; subst.
  destruct (validate body); [|apply IH, N'].
  cbn. constructor; [|apply IH, N'].
  intros Hin. apply in_map_iff in Hin. destruct Hin as (rec & El & Hl).
  destruct (created_uuid rqs rec Hl) as (u & Hu & Eu).
  assert (u = uuid4 e).
  { apply uuid_str_inj; [|exact U|congruence].
    eapply uuid_draws_in_range; eassumption. }
  subst u. contradiction.
Qed.

(** C8 (as amended).  The ids of the records that a sequence of
    requests creates are texts of 36 characters, none empty, and every
    record returned and every document stored carries one of them.  The
    server takes each id from [uuid.uuid4()] and checks nothing: the ids
    are pairwise different whenever the UUIDs drawn are (128-bit integers,
    no two the same), whatever the coordinates and whether or not the
    history was cleared in between. *)
Theorem ids_unique_while_uuids_differ (rqs : list request) :
  let w := snd (serve_all rqs empty_world) in
  let ids := map d_id (inserts (calls w)) in
  Forall (fun i => String.length i = 36%nat /\ i <> "") ids /\
  (forall l, In l (returned (fst (serve_all rqs empty_world))) -> In (id l) ids) /\
  (forall d, In d (locations w) -> In (d_id d) ids) /\
  (Forall uuid_ok rqs -> NoDup (uuid_draws rqs) -> NoDup ids).
Proof.
  cbv zeta. rewrite serve_all_inserts. cbn [calls empty_world inserts app].
  rewrite map_map. change (fun x => d_id (model_dump_iso x)) with id.
  split; [|split; [|split]].
  - rewrite Forall_forall. intros i Hi. apply in_map_iff in Hi.
    destruct Hi as (l & <- & Hl).
    destruct (created_uuid rqs l Hl) as (u & _ & ->).
    pose proof (length_uuid_str u) as L. split; [exact L|].
    intros E. rewrite E in L. discriminate L.
  - intros l Hl. apply in_map, (returned_created rqs empty_world), Hl.
  - intros d Hd. apply serve_all_stored in Hd. destruct Hd as [[]|Hd].
    apply in_map_iff in Hd. destruct Hd as (l & <- & Hl).
    apply (in_map id) in Hl. exact Hl.
  - intros U N. apply created_ids_nodup; assumption.
Qed.

(** *** Timestamps *)



(** *** Listing *)

Lemma serve_all_success (rqs : list request) (w : world) :
  Forall is_record (fst (serve_all rqs w)) ->
  locations (snd (serve_all rqs w)) =
    (locations w ++ map model_dump_iso (returned (fst (serve_all rqs w))))%list /\
  map timestamp (returned (fst (serve_all rqs w))) = clock_readings rqs /\
  List.length (returned (fst (serve_all rqs w))) = List.length rqs.
Proof.
  revert w. induction rqs as [|rq rqs IH]; intros w.
  - cbn. rewrite app_nil_r. auto.
  - rewrite serve_all_cons. cbn [fst snd]. intros F.
    inversion F as [|? ? R F']; subst.
    destruct (fst (serve rq w)) as [l| | |] eqn:E; try destruct R.
    destruct (serve_effect rq w) as (_ & _ & C).
    destruct (C l E) as (_ & El & body & e & -> & T).
    destruct (IH _ F') as (I1 & I2 & I3).
    cbn [returned map List.length clock_readings].
    rewrite I1, I2, I3, El, T, <- app_assoc. auto.
Qed.

(** C3 (as amended).  After any sequence of requests the listing
    returns 100 records, or all of them when there are fewer, newest
    first, and they are the newest:
    the records left out, put after them, continue the descending order.
    After [N <= 100] submissions that all succeeded, from the empty
    collection, it returns exactly [N] records, whose timestamps are the
    [N] clock readings, each not older than the next; the order is
    strict when the readings are pairwise different. *)
Theorem listing_newest_first :
  (forall rqs,
     Forall clock_ok rqs ->
     let w := snd (serve_all rqs empty_world) in
     exists listed left_out w',
       get_locations true w = (Ok listed, w') /\
       List.length listed = Nat.min 100 (List.length (locations w)) /\
       StronglySorted not_older (listed ++ left_out) /\
       Permutation (map model_dump_iso (listed ++ left_out)) (locations w)) /\
  (forall rqs,
     Forall clock_ok rqs ->
     (List.length rqs <= 100)%nat ->
     Forall is_record (fst (serve_all rqs empty_world)) ->
     exists listed w',
       get_locations true (snd (serve_all rqs empty_world)) = (Ok listed, w') /\
       List.length listed = List.length rqs /\
       Permutation (map timestamp listed) (clock_readings rqs) /\
       StronglySorted not_older listed /\
       (NoDup (clock_readings rqs) -> StronglySorted newer listed)).
Proof.
  split.
  - intros rqs C. cbv zeta.
    destruct (serve_all_holds rqs empty_world [] holds_empty C) as (locs & H & _).
    destruct (get_locations_holds _ _ H) as (sorted & P & S & G).
    exists (firstn 100 sorted), (skipn 100 sorted). eexists.
    split; [exact G|]. split.
    { rewrite length_firstn, (Permutation_length P).
      destruct H as [-> _]. rewrite length_map. reflexivity. }
    rewrite firstn_skipn. split; [exact S|].
    destruct H as [-> _]. apply Permutation_map, P.
  - intros rqs C L F.
    destruct (serve_all_success rqs empty_world F) as (E1 & E2 & E3).
    cbn [locations empty_world app] in E1.
    set (rs := returned (fst (serve_all rqs empty_world))) in *.
    assert (H : holds (snd (serve_all rqs empty_world)) rs).
    { split; [exact E1|]. rewrite Forall_forall. intros l Hl.
      pose proof (created_valid rqs C) as V. rewrite Forall_forall in V.
      apply V. eapply returned_created, Hl. }
    destruct (get_locations_holds _ _ H) as (sorted & P & S & G).
    assert (Ls : List.length sorted = List.length rqs)
      by (rewrite (Permutation_length P); exact E3).
    rewrite firstn_all2 in G by lia.
    exists sorted. eexists. split; [exact G|]. split; [exact Ls|].
    assert (Pt : Permutation (map timestamp sorted) (clock_readings rqs))
      by (rewrite <- E2; apply Permutation_map, P).
    split; [exact Pt|]. split; [exact S|].
    intros N. apply strict_of_nodup; [exact S|].
    eapply Permutation_NoDup; [apply Permutation_sym, Pt | exact N].
Qed.

(** *** The timestamp is stored as text and read back *)

(** C7.  A submission whose insert succeeds writes the timestamp as
    its ISO text; reading that text gives the same datetime; and the
    listing that follows returns records that are, field for field,
    records as they were created, the new one among them when the
    collection held fewer than 100 documents. *)
Theorem timestamp_round_trip
    (rqs : list request) (body : jvalue) (input : LocationCreate) (e : share_env) :
  Forall clock_ok rqs ->
  Datetime.valid (now e) = true ->
  validate body = Some input ->
  insert_ok e = true ->
  let w := snd (serve_all rqs empty_world) in
  let w1 := snd (serve (POST_location_share body e) w) in
  let rec := new_Location e input in
  In (model_dump_iso rec) (locations w1) /\
  d_timestamp (model_dump_iso rec) = Datetime.isoformat (now e) /\
  Datetime.fromisoformat (Datetime.isoformat (now e)) = Some (now e) /\
  exists listed w2,
    get_locations true w1 = (Ok listed, w2) /\
    (forall l, In l listed -> In l (created coerce rqs ++ [rec])) /\
    ((List.length (locations w) < 100)%nat ->
       In rec listed /\ timestamp rec = now e).
Proof.
  intros C V B I. cbv zeta.
  destruct (serve_all_holds rqs empty_world [] holds_empty C) as (locs & [Hl Hv] & Inc).
  set (w := snd (serve_all rqs empty_world)) in *.
  set (rec := new_Location e input).
  assert (E : locations (snd (serve (POST_location_share body e) w)) =
              (locations w ++ [model_dump_iso rec])%list).
  { unfold handle. rewrite B, share_location_eq. cbv zeta. rewrite I.
    destruct (try_post (post e)); reflexivity. }
  split; [rewrite E; apply in_or_app; right; left; reflexivity|].
  split; [reflexivity|]. split; [apply fromisoformat_isoformat, V|].
  assert (H1 : holds (snd (serve (POST_location_share body e) w)) (locs ++ [rec])).
  { split; [rewrite E, Hl, map_app; reflexivity|].
    apply Forall_app. split; [exact Hv|]. constructor; [exact V | constructor]. }
  destruct (get_locations_holds _ _ H1) as (sorted & P & _ & G).
  exists (firstn 100 sorted). eexists. split; [exact G|]. split.
  - intros l Hl'. apply In_firstn in Hl'.
    apply (Permutation_in _ P) in Hl'. apply in_app_or in Hl'.
    apply in_or_app. destruct Hl' as [Hl'|Hl']; [left|right; exact Hl'].
    apply Inc in Hl'. exact Hl'.
  - intros L. split; [|reflexivity].
    rewrite firstn_all2.
    + apply (Permutation_in _ (Permutation_sym P)), in_or_app.
      right. left. reflexivity.
    + rewrite (Permutation_length P), length_app. cbn.
      rewrite Hl, length_map in L. lia.
Qed.

(** *** Nothing rewrites a document *)

(** C9.  A submission leaves the collection as it is or appends one
    document to it; a listing leaves it as it is; a clear empties it or,
    failing, leaves it as it is.  So after any sequence of requests a
    document of the collection is a document that was there at the
    start or the dump of a record as it was created. *)
Theorem stored_records_never_modified :
  (forall rq w,
     let w' := snd (serve rq w) in
     match rq with
     | POST_location_share body e =>
         locations w' = locations w \/
         exists input,
           validate body = Some input /\
           locations w' =
             (locations w ++ [model_dump_iso (new_Location e input)])%list
     | GET_locations _ => locations w' = locations w
     | DELETE_locations _ => locations w' = [] \/ locations w' = locations w
     end) /\
  (forall rqs w d,
     In d (locations (snd (serve_all rqs w))) ->
     In d (locations w) \/ In d (map model_dump_iso (created coerce rqs))).
Proof.
  split; [|apply serve_all_stored].
  intros [body e|ok|ok] w; cbv zeta; unfold handle, respond.
  - destruct (validate body) as [input|]; [|left; reflexivity].
    rewrite share_location_eq. cbv zeta.
    destruct (insert_ok e); [|left; reflexivity].
    right. exists input. split; [reflexivity|].
    destruct (try_post (post e)); reflexivity.
  - rewrite get_locations_eq.
    destruct ok; [destruct (restore_all _)|]; reflexivity.
  - rewrite clear_locations_eq. destruct ok; [left|right]; reflexivity.
Qed.

End ServerFacts.

(** C1 (counterexample).  Telegram answers 300 with a JSON body: the
    status is not in 200..299, yet the submission succeeds. *)
Lemma non_2xx_response_accepted :
  insert_ok (Sample.env 1 Sample.noon Sample.multiple_choices) = true /\
  (exists r, Sample.multiple_choices = PostReturns r /\
             ~ 200 <= status_code r < 300) /\
  fst (share_location Sample.token Sample.chat
         (Sample.env 1 Sample.noon Sample.multiple_choices)
         Sample.delhi_input empty_world) =
  Ok (new_Location (Sample.env 1 Sample.noon Sample.multiple_choices) Sample.delhi_input).
Proof.
  split; [reflexivity|]. split; [|reflexivity].
  eexists. split; [reflexivity|]. cbn. lia.
Qed.

Lemma share_location_store_then_notify_witness :
  fst (share_location Sample.token Sample.chat
         (Sample.env 1 Sample.noon Sample.timed_out)
         Sample.delhi_input empty_world) =
  Err (HTTPException 500
         "Failed to send to Telegram: HTTPSConnectionPool: Read timed out. (read timeout=10)") /\
  List.length (locations (snd (share_location Sample.token Sample.chat
                            (Sample.env 1 Sample.noon Sample.timed_out)
                            Sample.delhi_input empty_world))) = 1%nat.
Proof.
  destruct (share_location_store_then_notify Sample.token Sample.chat
              (Sample.env 1 Sample.noon Sample.timed_out)
              Sample.delhi_input empty_world) as (_ & H & _).
  destruct (H eq_refl) as (L & F & _).
  split; [apply (F _ eq_refl) | rewrite L; reflexivity].
Defined.



(** C3 (counterexample).  Two submissions that both succeed, served with
    the same clock reading: the listing returns both and the first is not
    newer than the second. *)
Lemma listing_not_strictly_descending :
  Forall is_record (fst (Sample.serve_all Sample.same_tick empty_world)) /\
  (List.length Sample.same_tick <= 100)%nat /\
  exists l1 l2 w',
    get_locations true (snd (Sample.serve_all Sample.same_tick empty_world))
      = (Ok [l1; l2], w') /\
    ~ StronglySorted newer [l1; l2].
Proof.
  split; [repeat constructor|]. split; [cbn; lia|].
  do 3 eexists. split; [vm_compute; reflexivity|].
  intros S. inversion S as [|? ? _ F]; subst.
  inversion F as [|? ? N _]; subst. vm_compute in N. discriminate N.
Qed.

Lemma listing_newest_first_witness :
  exists listed w',
    get_locations true (snd (Sample.serve_all Sample.clock_set_back empty_world))
      = (Ok listed, w') /\
    List.length listed = 2%nat /\
    StronglySorted newer listed.
Proof.
  destruct (listing_newest_first Sample.token Sample.chat Sample.floats_only) as [_ H].
  destruct (H Sample.clock_set_back) as (listed & w' & G & L & _ & _ & N).
  - repeat constructor.
  - cbn. lia.
  - repeat constructor.
  - exists listed, w'. split; [exact G|]. split; [exact L|].
    apply N. repeat constructor; cbn; intuition discriminate.
Defined.




Lemma timestamp_round_trip_witness :
  exists listed w2,
    get_locations true
      (snd (Sample.serve (POST_location_share Sample.delhi
                            (Sample.env 1 Sample.noon_and_a_bit Sample.timed_out))
              empty_world)) = (Ok listed, w2) /\
    In (new_Location (Sample.env 1 Sample.noon_and_a_bit Sample.timed_out)
          Sample.delhi_input) listed.
Proof.
  destruct (timestamp_round_trip Sample.token Sample.chat Sample.floats_only
              [] Sample.delhi Sample.delhi_input
              (Sample.env 1 Sample.noon_and_a_bit Sample.timed_out))
    as (_ & _ & _ & listed & w2 & G & _ & H).
  - constructor.
  - reflexivity.
  - reflexivity.
  - reflexivity.
  - exists listed, w2. split; [exact G|]. apply H. cbn. lia.
Defined.

(** C8 (counterexample).  [uuid.uuid4()] returns the same UUID for two
    submissions: both succeed, both records are stored, and they have the
    same id. *)
Lemma same_uuid_same_id :
  exists l1 l2,
    fst (Sample.serve_all Sample.same_uuid empty_world)
      = [RLocation l1; RLocation l2] /\
    id l1 = id l2 /\
    map d_id (locations (snd (Sample.serve_all Sample.same_uuid empty_world)))
      = [id l1; id l2].
Proof.
  do 2 eexists. split; [reflexivity|]. split; reflexivity.
Qed.

Lemma ids_unique_while_uuids_differ_witness :
  NoDup (map d_id (inserts (calls (snd (Sample.serve_all Sample.twice_with_clear
                                          empty_world))))).
Proof.
  destruct (ids_unique_while_uuids_differ Sample.token Sample.chat Sample.floats_only
              Sample.twice_with_clear) as (_ & _ & _ & H).
  apply H.
  - repeat constructor; unfold Uuid.in_range; cbn; lia.
  - repeat constructor; cbn; intuition discriminate.
Defined.

Lemma stored_records_never_modified_witness :
  In Sample.second_document
     (locations (snd (Sample.serve_all Sample.twice_with_clear empty_world))) /\
  In Sample.second_document
     (map model_dump_iso (created Sample.floats_only Sample.twice_with_clear)).
Proof.
  assert (H : In Sample.second_document
                (locations (snd (Sample.serve_all Sample.twice_with_clear empty_world))))
    by (left; reflexivity).
  split; [exact H|].
  destruct (stored_records_never_modified Sample.token Sample.chat Sample.floats_only)
    as [_ S].
  destruct (S Sample.twice_with_clear empty_world Sample.second_document H) as [[]|K].
  exact K.
Defined.


(* ================================================================= *)
(** * Further properties of the routes *)

(** X1.  MongoDB sorts the documents on the ISO text of the timestamp,
    byte by byte; on the texts that [share_location] writes this order
    is the order of the instants, and two different instants never have
    the same text. *)
Theorem text_order_is_time_order (a b : Datetime.datetime) :
  Datetime.valid a = true -> Datetime.valid b = true ->
  String.compare (Datetime.isoformat a) (Datetime.isoformat b) = Datetime.compare a b /\
  String.leb (Datetime.isoformat a) (Datetime.isoformat b) = Datetime.leb a b /\
  (Datetime.isoformat a = Datetime.isoformat b -> a = b).
Proof.
  intros Va Vb. split; [apply isoformat_compare; assumption|].
  split; [apply isoformat_leb; assumption|].
  intros E. pose proof (fromisoformat_isoformat a Va) as Ra.
  rewrite E, (fromisoformat_isoformat b Vb) in Ra. congruence.
Qed.

(** X2.  An id is the canonical text of its UUID: five groups of 8, 4,
    4, 4 and 12 hexadecimal digits, which are the 32 digits of the UUID in
    order, joined by hyphens; and two different UUIDs never have the same
    id. *)
Theorem uuid_text_shape :
  (forall n, exists a b c d e,
     Uuid.str n = a ++ "-" ++ b ++ "-" ++ c ++ "-" ++ d ++ "-" ++ e /\
     String.length a = 8%nat /\ String.length b = 4%nat /\
     String.length c = 4%nat /\ String.length d = 4%nat /\
     String.length e = 12%nat /\
     a ++ b ++ c ++ d ++ e = Uuid.hex n) /\
  (forall n m, Uuid.in_range n -> Uuid.in_range m ->
     Uuid.str n = Uuid.str m -> n = m).
Proof.
  split; [|exact uuid_str_inj].
  intros n. unfold Uuid.str.
  pose proof (length_render 16 32 n) as L. fold (Uuid.hex n) in L.
  set (h := Uuid.hex n) in *. clearbody h.
  do 32 peel_string h L. destruct h; [|discriminate L].
  unfold Uuid.hyphenate. cbn [substring].
  do 5 eexists. split; [reflexivity|]. repeat split; reflexivity.
Qed.

Section ServerExtras.

Variable TOKEN CHAT : option string.
Variable coerce : jvalue -> option float.

Abbreviation serve' := (handle TOKEN CHAT coerce).
Abbreviation serve_all' := (run TOKEN CHAT coerce).
Abbreviation validate' := (validate_LocationCreate coerce).


(** X4.  The error of a submission tells what became of the record: with
    the error of the notification the document is in the collection, one
    more than before; with any other error the collection is as before
    and nothing was pushed to Telegram. *)
Theorem error_kind_tells_storage
    (body : jvalue) (e : share_env) (w : world) (err : error) :
  fst (serve' (POST_location_share body e) w) = RError err ->
  let w' := snd (serve' (POST_location_share body e) w) in
  (kind_of err = NotificationError /\
   exists input,
     validate' body = Some input /\
     locations w' = (locations w ++ [model_dump_iso (new_Location e input)])%list) \/
  (kind_of err <> NotificationError /\
   locations w' = locations w /\
   filter is_post (calls w') = filter is_post (calls w)).
Proof.
  cbv zeta. unfold handle.
  destruct (validate' body) as [input|] eqn:V.
  - rewrite share_location_eq. cbv zeta.
    destruct (insert_ok e); [destruct (try_post (post e))|]; cbn; intros [= <-].
    + left. split; [reflexivity|]. exists input. auto.
    + right. split; [discriminate|]. split; [reflexivity|].
      rewrite filter_app. cbn. apply app_nil_r.
  - cbn. intros [= <-]. right. split; [discriminate|]. auto.
Qed.

Lemma stored_by_cons (rq : request) (rqs : list request) :
  stored_by coerce (rq :: rqs) = (stored_by coerce [rq] ++ stored_by coerce rqs)%list.
Proof.
  destruct rq as [body e| |]; cbn; try reflexivity.
  destruct (validate' body); [destruct (insert_ok e)|]; reflexivity.
Qed.

Lemma serve_pushes (rq : request) (w : world) :
  let w' := snd (serve' rq w) in
  filter is_post (calls w') =
    (filter is_post (calls w) ++ map (push_of TOKEN CHAT) (stored_by coerce [rq]))%list /\
  (locations w' = [] \/
   locations w' = (locations w ++ map model_dump_iso (stored_by coerce [rq]))%list).
Proof.
  cbv zeta. destruct rq as [body e|ok|ok]; unfold handle, respond; cbn [stored_by].
  - destruct (validate' body) as [input|] eqn:V.
    + rewrite share_location_eq. cbv zeta.
      destruct (insert_ok e); [destruct (try_post (post e))|]; cbn;
        rewrite ?filter_app; cbn; rewrite ?app_nil_r; auto.
    + cbn. rewrite !app_nil_r. auto.
  - rewrite get_locations_eq.
    destruct ok; [destruct (restore_all _)|]; cbn;
      rewrite filter_app; cbn; rewrite !app_nil_r; auto.
  - rewrite clear_locations_eq.
    destruct ok; cbn; rewrite filter_app; cbn; rewrite !app_nil_r; auto.
Qed.

(** X5.  Over any sequence of requests, the pushes to Telegram are, in
    order, one for each record whose insert succeeded, with the
    coordinates of that record, all to the same URL and chat; and a
    document of the collection is one that was there at the start or the
    dump of such a record.  Nothing is pushed that was not stored, and
    nothing is stored without a push having been attempted. *)
Theorem pushes_follow_inserts (rqs : list request) (w : world) :
  let w' := snd (serve_all' rqs w) in
  filter is_post (calls w') =
    (filter is_post (calls w) ++ map (push_of TOKEN CHAT) (stored_by coerce rqs))%list /\
  (forall d, In d (locations w') ->
     In d (locations w) \/ In d (map model_dump_iso (stored_by coerce rqs))).
Proof.
  cbv zeta. revert w. induction rqs as [|rq rqs IH]; intros w.
  - cbn. rewrite app_nil_r. auto.
  - rewrite serve_all_cons, stored_by_cons. cbn [snd].
    destruct (IH (snd (serve' rq w))) as [P S].
    destruct (serve_pushes rq w) as [P1 S1]. cbv zeta in P1, S1.
    rewrite P, P1, !map_app, <- app_assoc. split; [reflexivity|].
    intros d Hd. apply S in Hd. rewrite in_app_iff.
    destruct Hd as [Hd|Hd]; [|auto].
    destruct S1 as [E|E]; rewrite E in Hd; [destruct Hd|].
    apply in_app_or in Hd. tauto.
Qed.

Lemma size_after_cons (rq : request) (rqs : list request) (n : nat) :
  size_after coerce (rq :: rqs) n = size_after coerce rqs (size_after coerce [rq] n).
Proof.
  destruct rq as [body e|ok|[|]]; cbn; try reflexivity.
  destruct (validate' body); [destruct (insert_ok e)|]; reflexivity.
Qed.

Lemma serve_size (rq : request) (w : world) :
  List.length (locations (snd (serve' rq w))) =
  size_after coerce [rq] (List.length (locations w)).
Proof.
  destruct rq as [body e|ok|ok]; unfold handle, respond; cbn [size_after].
  - destruct (validate' body) as [input|]; [|reflexivity].
    rewrite share_location_eq. cbv zeta.
    destruct (insert_ok e); [destruct (try_post (post e))|]; cbn;
      rewrite ?length_app; cbn; lia.
  - rewrite get_locations_eq.
    destruct ok; [destruct (restore_all _)|]; reflexivity.
  - rewrite clear_locations_eq. destruct ok; reflexivity.
Qed.

(** X6.  The size of the collection follows the history of the requests
    alone: one more document for each submission that passes validation
    and whose insert succeeds, whatever Telegram answers; none after a
    clear that succeeds; listings, rejected bodies and failed calls change
    nothing.  A clear reports exactly that number. *)
Theorem collection_size (rqs : list request) (w : world) :
  List.length (locations (snd (serve_all' rqs w))) =
    size_after coerce rqs (List.length (locations w)) /\
  fst (serve' (DELETE_locations true) (snd (serve_all' rqs w))) =
    RDeleted (Z.of_nat (size_after coerce rqs (List.length (locations w)))).
Proof.
  assert (S : forall w0, List.length (locations (snd (serve_all' rqs w0))) =
                         size_after coerce rqs (List.length (locations w0))).
  { induction rqs as [|rq rqs IH]; intros w0; [reflexivity|].
    rewrite serve_all_cons, size_after_cons. cbn [snd].
    rewrite IH, serve_size. reflexivity. }
  split; [apply S|].
  unfold handle, respond. rewrite clear_locations_eq. cbn [fst].
  rewrite S. reflexivity.
Qed.

(** X7.  Submit, list, clear, list.  From the empty collection, a
    submission that succeeds returns a record; the listing that follows
    returns exactly that record; the clear reports one deletion; the last
    listing is empty. *)
Theorem submit_list_clear_list
    (body : jvalue) (input : LocationCreate) (e : share_env) (j : jvalue) :
  validate' body = Some input ->
  Datetime.valid (now e) = true ->
  insert_ok e = true ->
  try_post (post e) = inr j ->
  fst (serve_all' [POST_location_share body e; GET_locations true;
                   DELETE_locations true; GET_locations true] empty_world) =
  [RLocation (new_Location e input); RLocations [new_Location e input];
   RDeleted 1; RLocations []].
Proof.
  intros V C I T.
  set (rec := new_Location e input).
  assert (E1 : forall w, serve' (POST_location_share body e) w =
               (RLocation rec,
                mkWorld (locations w ++ [model_dump_iso rec])
                        ((calls w ++ [InsertOne (model_dump_iso rec)]) ++
                         [RequestsPost (telegram_url TOKEN) CHAT
                            (lc_latitude input) (lc_longitude input)]))).
  { intros w. unfold handle. rewrite V, share_location_eq. cbv zeta.
    rewrite I, T. reflexivity. }
  assert (E2 : forall cs, serve' (GET_locations true) (mkWorld [model_dump_iso rec] cs) =
               (RLocations [rec], mkWorld [model_dump_iso rec] (cs ++ [Find]))).
  { intros cs. unfold handle, respond. rewrite get_locations_eq.
    cbn [locations calls firstn Mongo.sort_desc fold_left Mongo.insert_desc restore_all].
    rewrite restore_dump by exact C. reflexivity. }
  assert (E3 : forall cs, serve' (DELETE_locations true) (mkWorld [model_dump_iso rec] cs) =
               (RDeleted 1, mkWorld [] (cs ++ [DeleteMany]))).
  { intros cs. unfold handle, respond. rewrite clear_locations_eq. reflexivity. }
  assert (E4 : forall cs, serve' (GET_locations true) (mkWorld [] cs) =
               (RLocations [], mkWorld [] (cs ++ [Find]))).
  { intros cs. unfold handle, respond. rewrite get_locations_eq. reflexivity. }
  cbn [run]. rewrite E1. cbn [locations calls empty_world app].
  rewrite E2, E3, E4. reflexivity.
Qed.

Lemma logged_app (a b : list event) : logged (a ++ b) = (logged a ++ logged b)%list.
Proof.
  induction a as [|ev a IH]; [reflexivity|].
  destruct ev; cbn; rewrite IH; reflexivity.
Qed.

Lemma restore_all_err (l : list document) (e : error) :
  restore_all l = Err e -> e = ValueError.
Proof.
  induction l as [|d l IH]; cbn; [discriminate|].
  unfold restore. destruct (Datetime.fromisoformat (d_timestamp d)).
  - destruct (restore_all l); [discriminate|]. intros [= <-]. apply IH. reflexivity.
  - intros [= <-]. reflexivity.
Qed.

Lemma serve_logged (rq : request) (w : world) :
  exists reasons,
    logged (calls (snd (serve' rq w))) =
      (logged (calls w) ++
       map (String.append "Failed to send location to Telegram: ") reasons)%list /\
    details_raised [fst (serve' rq w)] =
      map (String.append "Failed to send to Telegram: ") reasons.
Proof.
  destruct rq as [body e|ok|ok]; unfold handle, respond.
  - destruct (validate' body) as [input|].
    + rewrite share_location_eq. cbv zeta.
      destruct (insert_ok e); [destruct (try_post (post e)) as [m|]|].
      * exists [m]. cbn. rewrite !logged_app. cbn. rewrite !app_nil_r. auto.
      * exists []. cbn. rewrite !logged_app. cbn. rewrite !app_nil_r. auto.
      * exists []. cbn. rewrite !logged_app. cbn. rewrite !app_nil_r. auto.
    + exists []. cbn. rewrite app_nil_r. auto.
  - rewrite get_locations_eq. exists [].
    destruct ok; [destruct (restore_all _) as [|err] eqn:R|];
      try (apply restore_all_err in R; subst err); cbn;
      rewrite logged_app; cbn; rewrite !app_nil_r; auto.
  - rewrite clear_locations_eq. exists [].
    destruct ok; cbn; rewrite logged_app; cbn; rewrite !app_nil_r; auto.
Qed.

Lemma details_raised_cons (r : response) (rs : list response) :
  details_raised (r :: rs) = (details_raised [r] ++ details_raised rs)%list.
Proof.
  destruct r as [| | |[]]; reflexivity.
Qed.

(** X8.  No failure of the notification goes unlogged and nothing else
    is logged: over any sequence of requests, the error messages logged
    and the details of the [HTTPException]s returned carry, in the same
    order, the same reasons. *)
Theorem notification_errors_are_logged (rqs : list request) (w : world) :
  exists reasons,
    logged (calls (snd (serve_all' rqs w))) =
      (logged (calls w) ++
       map (String.append "Failed to send location to Telegram: ") reasons)%list /\
    details_raised (fst (serve_all' rqs w)) =
      map (String.append "Failed to send to Telegram: ") reasons.
Proof.
  revert w. induction rqs as [|rq rqs IH]; intros w.
  - exists []. cbn. rewrite app_nil_r. auto.
  - rewrite serve_all_cons. cbn [fst snd].
    destruct (serve_logged rq w) as (r1 & L1 & D1).
    destruct (IH (snd (serve' rq w))) as (r2 & L2 & D2).
    exists (r1 ++ r2)%list. rewrite L2, L1, details_raised_cons, D1, D2.
    rewrite !map_app, <- app_assoc. auto.
Qed.

(** X9.  There is no deduplication: a body submitted twice, both inserts
    succeeding, leaves two more documents with the same coordinates and
    accuracy, and with different ids when the two UUIDs differ. *)
Theorem resubmission_duplicates
    (body : jvalue) (input : LocationCreate) (e1 e2 : share_env) (w : world) :
  validate' body = Some input ->
  insert_ok e1 = true -> insert_ok e2 = true ->
  exists d1 d2,
    locations (snd (serve_all' [POST_location_share body e1;
                                POST_location_share body e2] w)) =
      (locations w ++ [d1; d2])%list /\
    d_latitude d1 = d_latitude d2 /\ d_longitude d1 = d_longitude d2 /\
    d_accuracy d1 = d_accuracy d2 /\
    (Uuid.in_range (uuid4 e1) -> Uuid.in_range (uuid4 e2) ->
     uuid4 e1 <> uuid4 e2 -> d_id d1 <> d_id d2).
Proof.
  intros V I1 I2.
  exists (model_dump_iso (new_Location e1 input)),
         (model_dump_iso (new_Location e2 input)).
  split; [|repeat split].
  - rewrite !serve_all_cons. cbn [snd run]. unfold handle. rewrite V.
    rewrite !share_location_eq. cbv zeta. rewrite I1, I2.
    destruct (try_post (post e1)), (try_post (post e2)); cbn;
      rewrite <- app_assoc; reflexivity.
  - intros R1 R2 N E. apply N. apply uuid_str_inj; assumption.
Qed.

Lemma serve_reads_collection_only (rq : request) (w1 w2 : world) :
  locations w1 = locations w2 ->
  fst (serve' rq w1) = fst (serve' rq w2) /\
  locations (snd (serve' rq w1)) = locations (snd (serve' rq w2)).
Proof.
  intros E. destruct rq as [body e|ok|ok]; unfold handle, respond.
  - destruct (validate' body) as [input|]; [|auto].
    rewrite !share_location_eq. cbv zeta.
    destruct (insert_ok e); [destruct (try_post (post e))|]; cbn; rewrite E; auto.
  - rewrite !get_locations_eq, E.
    destruct ok; [destruct (restore_all _)|]; cbn; auto.
  - rewrite !clear_locations_eq, E. destruct ok; cbn; auto.
Qed.

Lemma listing_keeps_collection (ok : bool) (w : world) :
  locations (snd (serve' (GET_locations ok) w)) = locations w.
Proof.
  unfold handle, respond. rewrite get_locations_eq.
  destruct ok; [destruct (restore_all _)|]; reflexivity.
Qed.

Lemma listings_transparent (rqs : list request) (w1 w2 : world) :
  locations w1 = locations w2 ->
  responses_without_listings rqs (fst (serve_all' rqs w1)) =
    fst (serve_all' (without_listings rqs) w2) /\
  locations (snd (serve_all' rqs w1)) =
    locations (snd (serve_all' (without_listings rqs) w2)).
Proof.
  revert w1 w2. induction rqs as [|rq rqs IH]; intros w1 w2 E; [cbn; auto|].
  rewrite serve_all_cons. cbn [fst snd].
  unfold responses_without_listings, without_listings in *.
  cbn [combine filter fst].
  destruct (is_listing rq) eqn:L; cbn [negb].
  - destruct rq; try discriminate L.
    apply IH. rewrite listing_keeps_collection. exact E.
  - rewrite serve_all_cons. cbn [fst snd map].
    destruct (serve_reads_collection_only rq w1 w2 E) as [R S].
    destruct (IH _ _ S) as [IH1 IH2]. rewrite R, IH1. auto.
Qed.

(** X11.  Listings are transparent: the responses to the submissions
    and clears of a sequence of requests, and the collection it leaves,
    are those of the same sequence with every listing taken out. *)
Theorem listings_do_not_interfere (rqs : list request) (w : world) :
  responses_without_listings rqs (fst (serve_all' rqs w)) =
    fst (serve_all' (without_listings rqs) w) /\
  locations (snd (serve_all' rqs w)) =
    locations (snd (serve_all' (without_listings rqs) w)).
Proof.
  apply listings_transparent. reflexivity.
Qed.

End ServerExtras.

(** ** The allowed origins *)

Lemma split_comma_cons (s : string) : exists h t, split_comma s = h :: t.
Proof.
  induction s as [|c s (h & t & E)]; cbn; [eauto|].
  destruct (Ascii.eqb c ","); [eauto|]. rewrite E. eauto.
Qed.

(** X10.  The allowed origins are the pieces of [CORS_ORIGINS] between
    its commas, as they stand, spaces included: joined by commas they
    give the variable back; there is one more of them than there are
    commas, so never none; none contains a comma.  Without the variable
    the only origin is ["*"]. *)
Theorem allow_origins_split (s : string) :
  String.concat "," (allow_origins (Some s)) = s /\
  List.length (allow_origins (Some s)) = S (count_commas s) /\
  Forall (fun o => count_commas o = O) (allow_origins (Some s)) /\
  allow_origins None = ["*"].
Proof.
  unfold allow_origins. split; [|split; [|split; [|reflexivity]]].
  - induction s as [|c s IH]; [reflexivity|]. cbn [split_comma].
    destruct (Ascii.eqb_spec c ",") as [->|N].
    + destruct (split_comma_cons s) as (h & t & E). rewrite E in *.
      change (String.concat "," ("" :: h :: t))
        with ("" ++ "," ++ String.concat "," (h :: t)).
      rewrite IH. reflexivity.
    + destruct (split_comma_cons s) as (h & t & E). rewrite E in *.
      destruct t; cbn in *; congruence.
  - induction s as [|c s IH]; [reflexivity|]. cbn [split_comma count_commas].
    destruct (Ascii.eqb c ","); [cbn; rewrite IH; reflexivity|].
    destruct (split_comma_cons s) as (h & t & E). rewrite E in *. exact IH.
  - induction s as [|c s IH]; [repeat constructor|]. cbn [split_comma].
    destruct (Ascii.eqb c ",") eqn:C; [constructor; [reflexivity | exact IH]|].
    destruct (split_comma_cons s) as (h & t & E). rewrite E in *.
    inversion IH; subst. constructor; [cbn; rewrite C; assumption | assumption].
Qed.

(** ** The test client *)

Lemma log_all_effect (ls : list Tester.logging) (self : Tester.tester) :
  let t := Tester.log_all ls self in
  Tester.tests_run t = Tester.tests_run self + Z.of_nat (List.length ls) /\
  Tester.tests_passed t =
    Tester.tests_passed self +
    Z.of_nat (List.length (filter Tester.with_success ls)) /\
  Tester.test_results t = (Tester.test_results self ++ map entry_of ls)%list /\
  List.length (Tester.printed t) =
    (List.length (Tester.printed self) + List.length ls)%nat /\
  Tester.api_url t = Tester.api_url self.
Proof.
  cbv zeta. revert self. induction ls as [|l ls IH]; intros self.
  - cbn. rewrite app_nil_r. repeat split; lia.
  - unfold Tester.log_all in *. cbn [fold_left].
    destruct (IH (Tester.log_test (Tester.at_time l) (Tester.of_name l)
                    (Tester.with_success l) (Tester.with_details l) self))
      as (R & P & T & O & U).
    rewrite R, P, T, O, U. unfold Tester.log_test.
    cbn [Tester.tests_run Tester.tests_passed Tester.test_results
         Tester.printed Tester.api_url filter map List.length].
    rewrite <- app_assoc, length_app. unfold entry_of at 2.
    destruct (Tester.with_success l); cbn [List.length app];
      repeat split; try reflexivity; rewrite ?Nat2Z.inj_succ; lia.
Qed.

Lemma filter_all_length {A : Type} (f : A -> bool) (l : list A) :
  List.length (filter f l) = List.length l <-> Forall (fun x => f x = true) l.
Proof.
  induction l as [|x l IH]; cbn; [split; auto|].
  pose proof (filter_length_le f l) as Le.
  destruct (f x) eqn:F; cbn; split; intros H.
  - constructor; [exact F|]. apply IH. lia.
  - f_equal. apply IH. inversion H; assumption.
  - lia.
  - inversion H; congruence.
Qed.

(** X12.  The counters of the test client agree with its results: after
    any calls of [log_test] on a new client, [tests_run] is the number of
    results and of lines printed, [tests_passed] the number of results
    that succeeded, never above [tests_run]; the results are the tests
    logged, in order.  So [run_all_tests] returns [True], and [main] the
    exit code 0, exactly when every logged test passed. *)
Theorem tester_counters (base : string) (ls : list Tester.logging) :
  let t := Tester.log_all ls (Tester.init base) in
  Tester.tests_run t = Z.of_nat (List.length (Tester.test_results t)) /\
  Tester.tests_run t = Z.of_nat (List.length (Tester.printed t)) /\
  Tester.tests_passed t =
    Z.of_nat (List.length (filter Tester.success (Tester.test_results t))) /\
  0 <= Tester.tests_passed t <= Tester.tests_run t /\
  map Tester.test (Tester.test_results t) = map Tester.of_name ls /\
  map Tester.success (Tester.test_results t) = map Tester.with_success ls /\
  (Tester.all_passed t = true <->
   Forall (fun r => Tester.success r = true) (Tester.test_results t)) /\
  (Tester.exit_code (Tester.all_passed t) = 0 <->
   Forall (fun r => Tester.success r = true) (Tester.test_results t)).
Proof.
  cbv zeta.
  destruct (log_all_effect ls (Tester.init base)) as (R & P & T & O & _).
  cbv zeta in *. cbn [Tester.init Tester.tests_run Tester.tests_passed
                      Tester.test_results Tester.printed app List.length] in *.
  set (t := Tester.log_all ls (Tester.init base)) in *.
  assert (F : filter Tester.success (map entry_of ls) =
              map entry_of (filter Tester.with_success ls)).
  { clear. induction ls as [|l ls IH]; [reflexivity|]. cbn.
    destruct (Tester.with_success l); cbn; rewrite IH; reflexivity. }
  assert (A : Tester.all_passed t = true <->
              Forall (fun r => Tester.success r = true) (Tester.test_results t)).
  { unfold Tester.all_passed. rewrite Z.eqb_eq, R, P, T.
    rewrite <- (filter_all_length Tester.success), F, !length_map. lia. }
  rewrite T, F, !length_map, !map_map, O.
  pose proof (filter_length_le Tester.with_success ls).
  repeat split; try lia; try (rewrite <- T; apply A).
  - rewrite <- T. unfold Tester.exit_code.
    destruct (Tester.all_passed t); [intros _; apply A; reflexivity | discriminate].
  - rewrite <- T. intros K. apply A in K. rewrite K. reflexivity.
Qed.

(** ** The further properties on the concrete runs *)

Lemma text_order_is_time_order_witness :
  String.leb (Datetime.isoformat Sample.noon) (Datetime.isoformat Sample.noon_and_a_bit)
    = true /\
  String.leb (Datetime.isoformat Sample.noon_and_a_bit) (Datetime.isoformat Sample.noon)
    = false.
Proof.
  destruct (text_order_is_time_order Sample.noon Sample.noon_and_a_bit eq_refl eq_refl)
    as (_ & A & _).
  destruct (text_order_is_time_order Sample.noon_and_a_bit Sample.noon eq_refl eq_refl)
    as (_ & B & _).
  rewrite A, B. split; reflexivity.
Defined.

Lemma error_kind_tells_storage_witness :
  List.length
    (locations (snd (Sample.serve (POST_location_share Sample.delhi
                                     (Sample.env 1 Sample.noon Sample.timed_out))
                       empty_world))) = 1%nat.
Proof.
  destruct (error_kind_tells_storage Sample.token Sample.chat Sample.floats_only
              Sample.delhi (Sample.env 1 Sample.noon Sample.timed_out) empty_world
              (HTTPException 500
                 "Failed to send to Telegram: HTTPSConnectionPool: Read timed out. (read timeout=10)")
              eq_refl) as [(_ & input & _ & E)|(N & _)].
  - unfold Sample.serve. rewrite E. reflexivity.
  - exfalso. apply N. reflexivity.
Defined.

Lemma submit_list_clear_list_witness :
  fst (Sample.serve_all
         [POST_location_share Sample.delhi (Sample.env 1 Sample.noon Sample.sent);
          GET_locations true; DELETE_locations true; GET_locations true]
         empty_world) =
  [RLocation (new_Location (Sample.env 1 Sample.noon Sample.sent) Sample.delhi_input);
   RLocations [new_Location (Sample.env 1 Sample.noon Sample.sent) Sample.delhi_input];
   RDeleted 1; RLocations []].
Proof.
  apply (submit_list_clear_list Sample.token Sample.chat Sample.floats_only
           Sample.delhi Sample.delhi_input (Sample.env 1 Sample.noon Sample.sent)
           (JObj [("ok", JBool true)])); reflexivity.
Defined.

Lemma resubmission_duplicates_witness :
  exists d1 d2,
    locations (snd (Sample.serve_all Sample.same_tick empty_world)) = [d1; d2] /\
    d_latitude d1 = d_latitude d2 /\ d_longitude d1 = d_longitude d2 /\
    d_id d1 <> d_id d2.
Proof.
  destruct (resubmission_duplicates Sample.token Sample.chat Sample.floats_only
              Sample.delhi Sample.delhi_input
              (Sample.env 1 Sample.noon Sample.sent)
              (Sample.env 2 Sample.noon Sample.sent) empty_world
              eq_refl eq_refl eq_refl)
    as (d1 & d2 & L & A & B & _ & N).
  exists d1, d2. split; [exact L|]. split; [exact A|]. split; [exact B|].
  apply N; [unfold Uuid.in_range; cbn; lia .. | discriminate].
Defined.
